(** * map-sketch: the edge proxy (map-api-proxy/src/index.js) and the
      service worker (sw.js), embedded and verified.

    The development has three layers.
    - [Js]: the part of the JavaScript host the two programs call into
      (strings, numbers, [URLSearchParams], JSON values, the two regular
      expressions of the redaction pass).  Numbers are IEEE binary64, the
      kernel's primitive floats.  Strings are byte strings holding the
      UTF-8 text.
    - [Proxy]: [fetch], [handleLidarRequest], [detectRegion] and
      [getWMSConfig] of index.js.
    - [SW]: the install, activate and fetch handlers of sw.js over a store
      of named caches.
    Theorems follow the definitions. *)

From Stdlib Require Import ZArith Floats Ascii String List Bool Lia DecimalString.
From stdpp Require Import gmap strings list.

Set Warnings "-inexact-float,-register-all".

(* ===================================================================== *)
(** ** The JavaScript host *)
(* ===================================================================== *)

Module Js.

(** *** Strings *)

(** The double quote, U+0022. *)
Definition dquote : ascii := ascii_of_nat 34.
Definition backslash : ascii := ascii_of_nat 92.

Fixpoint takeWhile (p : ascii -> bool) (s : string) : string :=
  match s with
  | String c t => if p c then String c (takeWhile p t) else EmptyString
  | EmptyString => EmptyString
  end.

Fixpoint dropWhile (p : ascii -> bool) (s : string) : string :=
  match s with
  | String c t => if p c then dropWhile p t else s
  | EmptyString => EmptyString
  end.

(** [stripPrefix p s]: the rest of [s] after the prefix [p], when [s] starts
    with [p]. *)
Fixpoint stripPrefix (p s : string) : option string :=
  match p, s with
  | EmptyString, _ => Some s
  | String a p', String b s' => if Ascii.eqb a b then stripPrefix p' s' else None
  | String _ _, EmptyString => None
  end.

Definition startsWith (s p : string) : bool :=
  match stripPrefix p s with Some _ => true | None => false end.

(** [String.prototype.includes]: [p] occurs in [s] at some position. *)
Fixpoint includes (s p : string) : bool :=
  startsWith s p ||
  match s with
  | String _ t => includes t p
  | EmptyString => false
  end.

(** [String.prototype.endsWith]. *)
Fixpoint endsWith (s p : string) : bool :=
  String.eqb s p ||
  match s with
  | String _ t => endsWith t p
  | EmptyString => false
  end.

(** [s.split(sep)] for a one-character separator: always at least one piece
    (the empty string splits into one empty piece). *)
Fixpoint split (sep : ascii) (s : string) : list string :=
  match s with
  | EmptyString => [EmptyString]
  | String c t =>
      if Ascii.eqb c sep then EmptyString :: split sep t
      else match split sep t with
           | h :: r => String c h :: r
           | [] => [String c EmptyString]
           end
  end.

(** ASCII [toLowerCase]. *)
Definition lowerChar (c : ascii) : ascii :=
  let n := nat_of_ascii c in
  if (65 <=? n) && (n <=? 90) then ascii_of_nat (n + 32) else c.

Fixpoint toLowerCase (s : string) : string :=
  match s with
  | String c t => String (lowerChar c) (toLowerCase t)
  | EmptyString => EmptyString
  end.

(** *** Numbers *)

Definition Math_PI : float := 0x1.921fb54442d18p+1%float.

Definition isDigit (c : ascii) : bool :=
  let n := nat_of_ascii c in (48 <=? n) && (n <=? 57).

Definition isWhiteSpace (c : ascii) : bool :=
  let n := nat_of_ascii c in ((9 <=? n) && (n <=? 13)) || (n =? 32).

Definition bytes (l : list nat) : string :=
  string_of_list_ascii (map ascii_of_nat l).

(** The white space and line terminators beyond ASCII, in UTF-8: U+00A0,
    U+1680, U+2000 to U+200A, U+2028, U+2029, U+202F, U+205F, U+3000 and
    U+FEFF. *)
Definition wideSpaces : list string :=
  bytes [194; 160] :: bytes [225; 154; 128]
  :: map (fun n => bytes [226; 128; n]) (seq 128 11)
  ++ [ bytes [226; 128; 168]; bytes [226; 128; 169]; bytes [226; 128; 175];
       bytes [226; 129; 159]; bytes [227; 128; 128]; bytes [239; 187; 191] ].

Definition stripWide (s : string) : option string :=
  fold_right
    (fun w found =>
       match stripPrefix w s with
       | Some rest => Some rest
       | None => found
       end)
    None wideSpaces.

(** [TrimString(s, start)]: the white space and line terminators at the
    start are dropped. *)
Fixpoint trimStart (fuel : nat) (s : string) : string :=
  match fuel with
  | O => s
  | S fuel' =>
      match s with
      | EmptyString => s
      | String c t =>
          if isWhiteSpace c then trimStart fuel' t
          else match stripWide s with
               | Some rest => trimStart fuel' rest
               | None => s
               end
      end
  end.

Fixpoint digitsValue (acc : Z) (s : string) : Z :=
  match s with
  | EmptyString => acc
  | String c t => digitsValue (10 * acc + (Z.of_nat (nat_of_ascii c) - 48)) t
  end.

(** An optional sign: whether it is a minus, and the rest. *)
Definition readSign (s : string) : bool * string :=
  match s with
  | String "-" t => (true, t)
  | String "+" t => (false, t)
  | _ => (false, s)
  end.

(** The longest prefix of [s] that is an unsigned decimal literal
    (digits, an optional fraction, an optional exponent), as a mantissa [m]
    and a decimal exponent [e] standing for [m * 10^e]; [None] when no
    prefix is one. *)
Definition readDecimal (s : string) : option (Z * Z) :=
  let ip := takeWhile isDigit s in
  let r1 := dropWhile isDigit s in
  let '(fp, r2) :=
    match r1 with
    | String "." t => (takeWhile isDigit t, dropWhile isDigit t)
    | _ => (EmptyString, r1)
    end in
  if String.eqb ip EmptyString && String.eqb fp EmptyString then None
  else
    let ex :=
      match r2 with
      | String c t =>
          if Ascii.eqb c "e" || Ascii.eqb c "E" then
            let '(neg, t') := readSign t in
            let ds := takeWhile isDigit t' in
            if String.eqb ds EmptyString then 0%Z
            else if neg then (- digitsValue 0 ds)%Z else digitsValue 0 ds
          else 0%Z
      | EmptyString => 0%Z
      end in
    Some (digitsValue 0 (ip +:+ fp), (ex - Z.of_nat (String.length fp))%Z).

(** The binary64 number nearest to [(-1)^neg * m * 10^e] (ties to even),
    computed exactly. *)
Definition decimalToFloat (neg : bool) (m e : Z) : float :=
  SF2Prim
    (match m with
     | Z0 => S754_zero neg
     | Zpos p =>
         if (0 <=? e)%Z then
           binary_normalize prec emax (if neg then - (m * 10 ^ e) else m * 10 ^ e)%Z 0 neg
         else
           SFdiv prec emax (S754_finite neg p 0)
                 (S754_finite false (Z.to_pos (10 ^ (- e))) 0)
     | Zneg _ => S754_nan
     end).

(** The errors the engine itself throws in the code below. *)
Inductive Thrown :=
| TypeError_readOfNull (property : string)
| TypeError_notAFunction (callee : string)
| RangeError_status (status : nat)
| TypeError_nullBodyStatus.

(** The builtins whose results the language standard leaves to the engine,
    or that produce text: the programs are verified for every host. *)
Class Host := {
  (** [parseFloat(string)] *)
  parseFloat : string -> float;
  (** [Math.exp], [Math.atan] *)
  Math_exp : float -> float;
  Math_atan : float -> float;
  (** [Number.prototype.toString] *)
  Number_toString : float -> string;
  (** the [message] of an error the engine throws *)
  Error_message : Thrown -> string;
}.


(** *** A reference host

    One concrete host, used to run the programs on examples: [parseFloat]
    skips the leading white space, reads the longest decimal-literal prefix
    and rounds it correctly,
    [Number_toString] prints the shortest decimal that reads back, and
    [Math.exp] and [Math.atan] are evaluated by range reduction and a
    Taylor polynomial (the standard asks only for an approximation). *)

Definition ref_parseFloat (s : string) : float :=
  let t := trimStart (String.length s) s in
  let '(neg, u) := readSign t in
  if startsWith u "Infinity" then (if neg then neg_infinity else infinity)
  else match readDecimal u with
       | Some (m, e) => decimalToFloat neg m e
       | None => nan
       end.

Definition ofZ (k : Z) : float := SF2Prim (binary_normalize prec emax k 0 false).

(** The integer part of a finite number. *)
Definition truncZ (x : float) : Z :=
  match Prim2SF x with
  | S754_finite s m e =>
      let a := (if (0 <=? e)%Z then Z.pos m * 2 ^ e else Z.pos m / 2 ^ (- e))%Z in
      if s then (- a)%Z else a
  | _ => 0%Z
  end.

Fixpoint horner (cs : list float) (x : float) : float :=
  match cs with
  | [] => 0%float
  | c :: r => (c + x * horner r x)%float
  end.

(** 1, 1, 1/2, 1/6, ... *)
Fixpoint expCoeffs (n : nat) (i : Z) (c : float) : list float :=
  match n with
  | O => []
  | S k => c :: expCoeffs k (i + 1)%Z (c / ofZ i)%float
  end.

Definition ref_exp (x : float) : float :=
  (if 710 <? x then infinity
   else if x <? -746 then 0
   else if negb (x =? x) then nan
   else
     let k := truncZ (x / 0x1.62e42fefa39efp-1 + (if x <? 0 then -0.5 else 0.5)) in
     let r := x - ofZ k * 0x1.62e42fee00000p-1 - ofZ k * 0x1.a39ef35793c76p-33 in
     Z.ldexp (horner (expCoeffs 18 1 1) r) k)%float.

(** 0, 1, 0, -1/3, 0, 1/5, ... *)
Definition atanCoeffs : list float :=
  map (fun n => if Nat.even n then 0%float
                else ((if Nat.even (n / 2) then 1 else -1) / ofZ (Z.of_nat n))%float)
      (seq 0 30).

Definition ref_atan (x : float) : float :=
  (if negb (x =? x) then nan
   else
     let a := abs x in
     let inv := 1 <? a in
     let u := if inv then 1 / a else a in
     let h1 := u / (1 + sqrt (1 + u * u)) in
     let h2 := h1 / (1 + sqrt (1 + h1 * h1)) in
     let t := 4 * horner atanCoeffs h2 in
     let r := if inv then Math_PI / 2 - t else t in
     if x <? 0 then - r else r)%float.

(** The least [n] with [num / den < 10^n]. *)
Definition decExp (num den : Z) : Z :=
  let est := ((Z.log2 num - Z.log2 den) * 30103 / 100000 - 1)%Z in
  let below n := (if 0 <=? n then num <? den * 10 ^ n else num * 10 ^ (- n) <? den)%Z in
  (fix go (fuel : nat) (n : Z) : Z :=
     match fuel with
     | O => n
     | S f => if below n then n else go f (n + 1)%Z
     end) 6%nat est.

Definition digitsOf (s : Z) : string := NilZero.string_of_uint (N.to_uint (Z.to_N s)).

Fixpoint zeros (n : nat) : string :=
  match n with O => EmptyString | S k => String "0" (zeros k) end.

(** For [x] finite and positive: the digits of the least-digit integer [s]
    and the [n] such that [s * 10^(n - k)], [k] the number of digits, reads
    back as [x]; of two candidates the one nearer to [x]. *)
Definition shortest (x : float) : string * Z :=
  match Prim2SF x with
  | S754_finite _ m e =>
      let num := (Z.pos m * 2 ^ Z.max e 0)%Z in
      let den := (2 ^ Z.max (- e) 0)%Z in
      let n := decExp num den in
      (fix go (fuel : nat) (k : Z) : string * Z :=
         match fuel with
         | O => (digitsOf (Z.pos m), n)
         | S f =>
             let sh := (n - k)%Z in
             let numS := (if 0 <=? sh then num else num * 10 ^ (- sh))%Z in
             let denS := (if 0 <=? sh then den * 10 ^ sh else den)%Z in
             let lo := (numS / denS)%Z in
             let hi := (lo + 1)%Z in
             let okLo := ((0 <? lo)%Z && (decimalToFloat false lo sh =? x)%float)%bool in
             let okHi := (decimalToFloat false hi sh =? x)%float in
             let hiCloser := ((2 * lo + 1) * denS <? 2 * numS)%Z in
             if okHi && (negb okLo || hiCloser) then
               if (hi =? 10 ^ k)%Z then (digitsOf (10 ^ (k - 1)), (n + 1)%Z)
               else (digitsOf hi, n)
             else if okLo then (digitsOf lo, n)
             else go f (k + 1)%Z
         end) 17%nat 1%Z
  | _ => (EmptyString, 0%Z)
  end.

Definition ref_Number_toString (x : float) : string :=
  if negb (x =? x)%float then "NaN"
  else if (x =? 0)%float then "0"
  else
    let neg := (x <? 0)%float in
    let a := abs x in
    (if neg then "-" else "") +:+
    (if (a =? infinity)%float then "Infinity"
     else
       let '(ds, n) := shortest a in
       let k := Z.of_nat (String.length ds) in
       if ((k <=? n) && (n <=? 21))%Z then ds +:+ zeros (Z.to_nat (n - k))
       else if ((0 <? n) && (n <=? 21))%Z then
         substring 0 (Z.to_nat n) ds +:+ "." +:+ substring (Z.to_nat n) (Z.to_nat (k - n)) ds
       else if ((-6 <? n) && (n <=? 0))%Z then
         "0." +:+ zeros (Z.to_nat (- n)) +:+ ds
       else
         let ex := (n - 1)%Z in
         let exs := (if (ex <? 0)%Z then "-" else "+") +:+ digitsOf (Z.abs ex) in
         match ds with
         | String d EmptyString => String d EmptyString +:+ "e" +:+ exs
         | String d r => String d EmptyString +:+ "." +:+ r +:+ "e" +:+ exs
         | EmptyString => EmptyString
         end).

(** The messages are those of V8 and Chromium. *)
Definition ref_Error_message (e : Thrown) : string :=
  match e with
  | TypeError_readOfNull p =>
      "Cannot read properties of null (reading '" +:+ p +:+ "')"
  | TypeError_notAFunction c => c +:+ " is not a function"
  | RangeError_status st =>
      "Failed to construct 'Response': The status provided ("
        +:+ NilZero.string_of_uint (Nat.to_uint st)
        +:+ ") is outside the range [200, 599]."
  | TypeError_nullBodyStatus =>
      "Failed to construct 'Response': Response with null body status cannot have body"
  end.

#[export] Instance refHost : Host := {|
  parseFloat := ref_parseFloat;
  Math_exp := ref_exp;
  Math_atan := ref_atan;
  Number_toString := ref_Number_toString;
  Error_message := ref_Error_message;
|}.

(** *** URLSearchParams: the list of name-value pairs, in order *)

Definition Params := list (string * string).

Fixpoint sp_get (k : string) (l : Params) : option string :=
  match l with
  | [] => None
  | (k', v) :: r => if String.eqb k' k then Some v else sp_get k r
  end.

Definition sp_has (k : string) (l : Params) : bool :=
  existsb (fun p => String.eqb (fst p) k) l.

(** The parameter has that name. *)
Definition named (k : string) (p : string * string) : bool := String.eqb (fst p) k.

Definition sp_append (k v : string) (l : Params) : Params := l ++ [(k, v)].

(** [set]: the first pair named [k] gets the value and the other pairs named
    [k] are removed; with no such pair, the pair is appended. *)
Fixpoint sp_set (k v : string) (l : Params) : Params :=
  match l with
  | [] => [(k, v)]
  | (k', v') :: r =>
      if String.eqb k' k
      then (k, v) :: List.filter (fun p => negb (String.eqb (fst p) k)) r
      else (k', v') :: sp_set k v r
  end.

Definition hexDigit (upper : bool) (n : nat) : ascii :=
  if n <? 10 then ascii_of_nat (48 + n)
  else ascii_of_nat ((if upper then 55 else 87) + n).

(** The application/x-www-form-urlencoded byte serializer. *)
Definition isUrlSafe (c : ascii) : bool :=
  let n := nat_of_ascii c in
  ((48 <=? n) && (n <=? 57)) || ((65 <=? n) && (n <=? 90)) ||
  ((97 <=? n) && (n <=? 122)) ||
  (n =? 42) || (n =? 45) || (n =? 46) || (n =? 95).

Fixpoint urlencode (s : string) : string :=
  match s with
  | EmptyString => EmptyString
  | String c t =>
      if isUrlSafe c then String c (urlencode t)
      else if Ascii.eqb c " " then String "+" (urlencode t)
      else
        let n := nat_of_ascii c in
        String "%" (String (hexDigit true (n / 16))
                      (String (hexDigit true (n mod 16)) (urlencode t)))
  end.

Fixpoint sp_toString (l : Params) : string :=
  match l with
  | [] => EmptyString
  | [(k, v)] => urlencode k +:+ "=" +:+ urlencode v
  | (k, v) :: r => urlencode k +:+ "=" +:+ urlencode v +:+ "&" +:+ sp_toString r
  end.

(** [a || b] on the results of [get]: [null] and the empty string are falsy. *)
Definition truthyStr (o : option string) : bool :=
  match o with
  | Some s => negb (String.eqb s EmptyString)
  | None => false
  end.

Definition orElse (a b : option string) : option string :=
  if truthyStr a then a else b.

Definition orDefault (a : option string) (d : string) : string :=
  match a with
  | Some s => if String.eqb s EmptyString then d else s
  | None => d
  end.


(** *** JSON values

    What [JSON.parse] builds: a tree without sharing.  The members of an
    object are listed in property order, each name once. *)

Inductive JSON :=
| JNull
| JBool (b : bool)
| JNumber (x : float)
| JString (s : string)
| JArray (items : list JSON)
| JObject (members : list (string * JSON)).

(** [ToBoolean]. *)
Definition truthy (v : JSON) : bool :=
  match v with
  | JNull => false
  | JBool b => b
  | JNumber x => negb (x =? 0)%float && (x =? x)%float
  | JString s => negb (String.eqb s EmptyString)
  | JArray _ | JObject _ => true
  end.

(** [undefined] is falsy. *)
Definition truthyOpt (o : option JSON) : bool :=
  match o with Some v => truthy v | None => false end.

Definition isNull (v : JSON) : bool :=
  match v with JNull => true | _ => false end.

Fixpoint assoc (k : string) (ms : list (string * JSON)) : option JSON :=
  match ms with
  | [] => None
  | (k', v) :: r => if String.eqb k' k then Some v else assoc k r
  end.

(** An array index as a property name: the canonical decimal of a natural
    number. *)
Definition arrayIndex (k : string) : option nat :=
  match k with
  | EmptyString => None
  | String c t =>
      if forallb isDigit (list_ascii_of_string k)
         && (negb (Ascii.eqb c "0") || String.eqb t EmptyString)
      then Some (Z.to_nat (digitsValue 0 k))
      else None
  end.

(** [v[k]] where it is a JSON value: a member of an object, an element of
    an array.  What else a read can give (the length and the characters of
    a string or an array, the inherited builtin functions) is a primitive
    or a function, on which the program only reads [.url], which they do
    not have; [None] stands for all of these and for [undefined]. *)
Definition getProp (v : JSON) (k : string) : option JSON :=
  match v with
  | JObject ms => assoc k ms
  | JArray xs =>
      match arrayIndex k with
      | Some i => nth_error xs i
      | None => None
      end
  | _ => None
  end.

(** The read [o[k]] of an [o] that was itself read. *)
Definition getProp2 (o : option JSON) (k : string) : option JSON :=
  match o with
  | Some v => getProp v k
  | None => None
  end.

Fixpoint assocSet (k : string) (v : JSON) (ms : list (string * JSON))
  : list (string * JSON) :=
  match ms with
  | [] => [(k, v)]
  | (k', v') :: r =>
      if String.eqb k' k then (k', v) :: r else (k', v') :: assocSet k v r
  end.

Fixpoint assocDelete (k : string) (ms : list (string * JSON))
  : list (string * JSON) :=
  match ms with
  | [] => []
  | (k', v') :: r =>
      if String.eqb k' k then assocDelete k r else (k', v') :: assocDelete k r
  end.

Fixpoint listSet (i : nat) (v : JSON) (xs : list JSON) : list JSON :=
  match xs, i with
  | [], _ => []
  | _ :: r, O => v :: r
  | x :: r, S j => x :: listSet j v r
  end.

(** [o[k] = v] on a property that [getProp] can read or on a new member of
    an object: the value of an existing member is replaced in place, a new
    member goes last. *)
Definition setProp (o : JSON) (k : string) (v : JSON) : JSON :=
  match o with
  | JObject ms => JObject (assocSet k v ms)
  | JArray xs =>
      match arrayIndex k with
      | Some i => JArray (listSet i v xs)
      | None => o
      end
  | _ => o
  end.

(** [delete o[k]] of a member of an object. *)
Definition deleteProp (o : JSON) (k : string) : JSON :=
  match o with
  | JObject ms => JObject (assocDelete k ms)
  | _ => o
  end.

(** [QuoteJSONString]. *)
Fixpoint escapeJSON (s : string) : string :=
  match s with
  | EmptyString => EmptyString
  | String c t =>
      let n := nat_of_ascii c in
      let two (x : ascii) := String backslash (String x (escapeJSON t)) in
      if n =? 8 then two "b"%char
      else if n =? 9 then two "t"%char
      else if n =? 10 then two "n"%char
      else if n =? 12 then two "f"%char
      else if n =? 13 then two "r"%char
      else if n =? 34 then two dquote
      else if n =? 92 then two backslash
      else if n <? 32 then
        String backslash
          (String "u" (String "0" (String "0"
             (String (hexDigit false (n / 16))
                (String (hexDigit false (n mod 16)) (escapeJSON t))))))
      else String c (escapeJSON t)
  end.

Definition quoteJSON (s : string) : string :=
  String dquote (escapeJSON s +:+ String dquote EmptyString).

Definition isFinite (x : float) : bool :=
  (x =? x)%float && negb (abs x =? infinity)%float.

(** [JSON.stringify(v)], no indentation. *)
Fixpoint stringify `{Host} (v : JSON) : string :=
  match v with
  | JNull => "null"
  | JBool true => "true"
  | JBool false => "false"
  | JNumber x => if isFinite x then Number_toString x else "null"
  | JString s => quoteJSON s
  | JArray xs =>
      "[" +:+
      (fix elements (l : list JSON) : string :=
         match l with
         | [] => EmptyString
         | [x] => stringify x
         | x :: r => stringify x +:+ "," +:+ elements r
         end) xs
      +:+ "]"
  | JObject ms =>
      "{" +:+
      (fix members (l : list (string * JSON)) : string :=
         match l with
         | [] => EmptyString
         | [(k, x)] => quoteJSON k +:+ ":" +:+ stringify x
         | (k, x) :: r => quoteJSON k +:+ ":" +:+ stringify x +:+ "," +:+ members r
         end) ms
      +:+ "}"
  end.

(** *** The regular expressions of the redaction pass

    [/\?key=[^"&]+/g] and [/&key=[^"&]+/g]: a lead character, the text
    [key=], and the longest non-empty run of characters other than the
    double quote and the ampersand. *)

Definition keyChar (c : ascii) : bool :=
  negb (Ascii.eqb c dquote) && negb (Ascii.eqb c "&").

(** The length of the match that starts at the head of [s], if there is one. *)
Definition keyMatch (lead : ascii) (s : string) : option nat :=
  match stripPrefix (String lead "key=") s with
  | Some rest =>
      match String.length (takeWhile keyChar rest) with
      | O => None
      | S n => Some (5 + S n)
      end
  | None => None
  end.

(** [s.replace(re, '')] for a global expression whose matches are found by
    [m] and are never empty: the text is scanned from the left; at a match
    the matched characters ([skip] counts those still to drop) are left out
    and the scan goes on after them. *)
Fixpoint replaceAll (m : string -> option nat) (skip : nat) (s : string) : string :=
  match s with
  | EmptyString => EmptyString
  | String c t =>
      match skip with
      | S k => replaceAll m k t
      | O =>
          match m s with
          | Some (S n) => replaceAll m n t
          | _ => String c (replaceAll m 0 t)
          end
      end
  end.

Fixpoint dropN (n : nat) (s : string) : string :=
  match n, s with
  | S k, String _ t => dropN k t
  | _, _ => s
  end.

(** The same for an expression without the [g] flag: the first match only. *)
Fixpoint replaceFirst (m : string -> option nat) (s : string) : string :=
  match s with
  | EmptyString => EmptyString
  | String c t =>
      match m s with
      | Some n => dropN n s
      | None => String c (replaceFirst m t)
      end
  end.

(** [/\?key=[^&]+/], of the unused [sourceUrl]. *)
Definition keyMatchAmp (s : string) : option nat :=
  match stripPrefix "?key=" s with
  | Some rest =>
      match String.length (takeWhile (fun c => negb (Ascii.eqb c "&")) rest) with
      | O => None
      | S n => Some (5 + S n)
      end
  | None => None
  end.

(** Some position of [s] starts a match of the expression with that lead
    character. *)
Fixpoint hasKey (lead : ascii) (s : string) : bool :=
  match keyMatch lead s with
  | Some _ => true
  | None =>
      match s with
      | String _ t => hasKey lead t
      | EmptyString => false
      end
  end.

(** The text is empty or starts with a character that ends a key. *)
Definition stopped (s : string) : Prop :=
  match s with
  | EmptyString => True
  | String c _ => keyChar c = false
  end.

End Js.

(* ===================================================================== *)
(** ** index.js: the edge proxy *)
(* ===================================================================== *)

Module Proxy.
Import Js.

Inductive Region := england | scotland | wales | northern_ireland.

Section RegionResolver.
Context `{Host}.
Local Open Scope float_scope.

(** Lines 283-299 of [detectRegion]: the guess of the coordinate system
    from the magnitude of the centre, and the conversion from EPSG:3857. *)
Definition geographicCenter (centerX centerY : float) : float * float :=
  if (20000 <? abs centerX) || (20000 <? abs centerY) then
    let originShift := 2 * Math_PI * 6378137 / 2.0 in
    let centerLon := (centerX / originShift) * 180.0 in
    let latRad := (centerY / originShift) * Math_PI in
    let centerLat :=
      (Math_atan (Math_exp latRad) * 2 - Math_PI / 2) * (180.0 / Math_PI) in
    (centerLon, centerLat)
  else
    (centerX, centerY).

Definition detectRegion (bboxString : string) : Region :=
  let coords := map parseFloat (split "," bboxString) in
  if negb (Nat.eqb (List.length coords) 4) then england
  else
    let minX := nth 0 coords nan in
    let minY := nth 1 coords nan in
    let maxX := nth 2 coords nan in
    let maxY := nth 3 coords nan in
    let centerX := (minX + maxX) / 2 in
    let centerY := (minY + maxY) / 2 in
    let '(centerLon, centerLat) := geographicCenter centerX centerY in
    if 55.3 <? centerLat then scotland
    else if (centerLon <? -2.5) && (51.3 <? centerLat) && (centerLat <? 53.5)
    then wales
    else if (centerLon <? -5.5) && (54.0 <? centerLat) && (centerLat <? 55.5)
    then northern_ireland
    else england.

End RegionResolver.

Definition regionKey (r : Region) : string :=
  match r with
  | england => "england"
  | scotland => "scotland"
  | wales => "wales"
  | northern_ireland => "northern_ireland"
  end.

Record WMSConfig := { wms_url : string; wms_layers : string }.

Definition englandWMS : WMSConfig :=
  {| wms_url := "https://environment.data.gov.uk/spatialdata/lidar-composite-digital-terrain-model-dtm-1m/wms";
     wms_layers := "Lidar_Composite_Hillshade_DTM_1m" |}.

(** The table of [getWMSConfig]: the four entries are the same upstream. *)
Definition configs : list (string * WMSConfig) :=
  [ ("england", englandWMS); ("scotland", englandWMS);
    ("wales", englandWMS); ("northern_ireland", englandWMS) ].

(** [configs[region] || configs.england], for the region names the
    program passes. *)
Definition getWMSConfig (region : Region) : WMSConfig :=
  match List.find (fun e => String.eqb (fst e) (regionKey region)) configs with
  | Some e => snd e
  | None => englandWMS
  end.

(** *** Requests and responses *)

Record URL := { origin : string; searchParams : Params }.
Record Request := { method : string; url : URL }.
Record Env := { OS_NGD_API_KEY : string }.

Inductive Body := NoBody | Text (s : string) | Binary (bytes : string).

Record Response := {
  status : nat;
  headers : list (string * string);
  body : Body
}.

(** What [await response.json()] gives. *)
Inductive Parsed := ParsedJSON (data : JSON) | SyntaxError (message : string).

(** A response of an upstream: its status, [headers.get('content-type')],
    and its body as [json()] and as [arrayBuffer()] read it. *)
Record Upstream := {
  up_status : nat;
  up_contentType : option string;
  up_json : Parsed;
  up_arrayBuffer : string
}.

(** [await fetch(...)]: a response, or a rejection with its message. *)
Inductive FetchResult := Resolved (r : Upstream) | Rejected (message : string).

Record Outbound := {
  out_url : string;
  out_method : string;
  out_headers : list (string * string)
}.

(** What a handler does: it answers at once, or it sends one request
    upstream and answers from what comes back. *)
Inductive Outcome :=
| Reply (r : Response)
| Forward (req : Outbound) (k : FetchResult -> Response).

Inductive Completion (A : Type) :=
| Normal (a : A)
| Throw (e : Thrown).
Arguments Normal {A} a.
Arguments Throw {A} e.

Definition CORS : string * string := ("Access-Control-Allow-Origin", "*").

Section Handlers.
Context `{Host}.

(** [new Response(JSON.stringify(v), {status, headers: json + CORS})]. *)
Definition jsonResponse (st : nat) (v : JSON) : Response :=
  {| status := st;
     headers := [("Content-Type", "application/json"); CORS];
     body := Text (stringify v) |}.

(** The statuses with which a response has no body. *)
Definition nullBodyStatus (st : nat) : bool :=
  (st =? 101) || (st =? 103) || (st =? 204) || (st =? 205) || (st =? 304).

(** [new Response(body, {status, headers: content type + CORS + cache})]:
    the constructor throws a RangeError for a status outside 200 to 599, and
    a TypeError for a body given with a null body status. *)
Definition dataResponse (st : nat) (contentType : string) (b : Body)
  : Completion Response :=
  if (st <? 200) || (599 <? st) then Throw (RangeError_status st)
  else if nullBodyStatus st
          && match b with NoBody => false | _ => true end
  then Throw TypeError_nullBodyStatus
  else
    Normal
      {| status := st;
         headers := [("Content-Type", contentType); CORS;
                     ("Cache-Control", "public, max-age=3600")];
         body := b |}.

Definition preflight : Response :=
  {| status := 200;
     headers := [ CORS;
                  ("Access-Control-Allow-Methods", "GET, POST, OPTIONS");
                  ("Access-Control-Allow-Headers", "Content-Type");
                  ("Access-Control-Max-Age", "86400") ];
     body := NoBody |}.

Definition missingService : Response :=
  jsonResponse 400
    (JObject [ ("error", JString "Missing service parameter");
               ("usage", JString "Add ?service=tiles, ?service=features, or ?service=lidar") ]).

Definition invalidService : Response :=
  jsonResponse 400
    (JObject [ ("error", JString "Invalid service type");
               ("validTypes", JArray [JString "tiles"; JString "features"; JString "lidar"]) ]).

Definition failure (what message : string) : Response :=
  jsonResponse 500
    (JObject [ ("error", JString what); ("message", JString message) ]).

(** The [catch] around the construction of a response. *)
Definition orFailure (what : string) (c : Completion Response) : Response :=
  match c with
  | Normal r => r
  | Throw e => failure what (Error_message e)
  end.

(** Lines 205-224 of [handleLidarRequest]: the parameters of the outbound
    WMS request. *)
Definition lidarParams (params : Params) (layers : string) : Params :=
  let wmsParams : Params :=
    fold_left
      (fun wmsParams '(key, value) =>
         let lowerKey := toLowerCase key in
         if String.eqb lowerKey "service" && String.eqb (toLowerCase value) "lidar"
         then wmsParams
         else sp_append key value wmsParams)
      params [] in
  let wmsParams :=
    if negb (sp_has "SERVICE" wmsParams) && negb (sp_has "service" wmsParams)
    then sp_set "SERVICE" "WMS" wmsParams
    else wmsParams in
  sp_set "LAYERS" layers wmsParams.

(** The test of the copy loop (line 212): the parameter is the marker
    [service=lidar], whatever the case of its letters. *)
Definition isMarker (p : string * string) : bool :=
  String.eqb (toLowerCase (fst p)) "service" && String.eqb (toLowerCase (snd p)) "lidar".

Definition handleLidarRequest (url : URL) (request : Request) : Outcome :=
  let wmsRequest :=
    orElse (sp_get "REQUEST" (searchParams url)) (sp_get "request" (searchParams url)) in
  let bbox :=
    orElse (sp_get "BBOX" (searchParams url)) (sp_get "bbox" (searchParams url)) in
  let wmsConfig :=
    match bbox with
    | Some b =>
        if negb (String.eqb b EmptyString)
        then getWMSConfig (detectRegion b)
        else getWMSConfig england
    | None => getWMSConfig england
    end in
  let wmsUrl := wms_url wmsConfig in
  let layers := wms_layers wmsConfig in
  let wmsParams := lidarParams (searchParams url) layers in
  let fullWmsUrl := wmsUrl +:+ "?" +:+ sp_toString wmsParams in
  Forward
    {| out_url := fullWmsUrl;
       out_method := "GET";
       out_headers := [("User-Agent", "MapSketch-Proxy/1.0")] |}
    (fun result =>
       match result with
       | Resolved wmsResponse =>
           orFailure "LiDAR WMS request failed"
             (dataResponse (up_status wmsResponse)
                (orDefault (up_contentType wmsResponse) "image/png")
                (Binary (up_arrayBuffer wmsResponse)))
       | Rejected message => failure "LiDAR WMS request failed" message
       end).

(** [url.searchParams.get('collection') || 'ngd-base']. *)
Definition collectionOf (url : URL) : string :=
  orDefault (sp_get "collection" (searchParams url)) "ngd-base".

Definition tilesTemplate (url : URL) (collectionId : string) : string :=
  origin url +:+ "?service=tiles&collection=" +:+ collectionId
    +:+ "&path=tiles/3857/{z}/{y}/{x}".

(** Lines 122-143 of [fetch]: the changes to the parsed body.  Reading
    [data.sources] throws when [data] is [null], and [.url.replace(...)]
    throws when the [url] is truthy and not a string. *)
Definition rewriteStyle (url : URL) (serviceType : string) (data : JSON)
  : Completion JSON :=
  if isNull data then Throw (TypeError_readOfNull "sources")
  else
    let sources := getProp data "sources" in
    if truthyOpt sources && String.eqb serviceType "tiles" then
      let collectionId := collectionOf url in
      let source := getProp2 sources collectionId in
      let rewritten :=
        if truthyOpt source && truthyOpt (getProp2 source "url") then
          match sources, source, getProp2 source "url" with
          | Some srcs, Some src, Some (JString u) =>
              let sourceUrl := replaceFirst keyMatchAmp u in
              let src1 :=
                setProp src "tiles" (JArray [JString (tilesTemplate url collectionId)]) in
              let src2 := deleteProp src1 "url" in
              Normal (setProp data "sources" (setProp srcs collectionId src2))
          | _, _, _ =>
              Throw (TypeError_notAFunction "data.sources[collectionId].url.replace")
          end
        else Normal data in
      match rewritten with
      | Normal data1 => Normal (deleteProp (deleteProp data1 "center") "zoom")
      | Throw e => Throw e
      end
    else Normal data.

(** Line 147: the redaction pass over the serialized text. *)
Definition redact (jsonText : string) : string :=
  replaceAll (keyMatch "&") 0 (replaceAll (keyMatch "?") 0 jsonText).

(** Lines 118-148: the body sent back for a JSON response of the upstream. *)
Definition rewriteJSON (url : URL) (serviceType : string) (data : JSON)
  : Completion string :=
  match rewriteStyle url serviceType data with
  | Normal data1 =>
      let jsonText := stringify data1 in
      let cleaned := redact jsonText in
      Normal cleaned
  | Throw e => Throw e
  end.

Definition controlKeys : list string := ["service"; "collection"; "path"].

(** Lines 91-101: the query parameters passed through. *)
Definition additionalParams (params : Params) : Params :=
  fold_left
    (fun acc '(key, value) =>
       if existsb (String.eqb key) controlKeys then acc
       else sp_append key value acc)
    params [].

Definition withAdditional (apiUrl : string) (params : Params) : string :=
  let additional := sp_toString (additionalParams params) in
  if negb (String.eqb additional EmptyString)
  then apiUrl +:+ "&" +:+ additional
  else apiUrl.

(** Lines 105-179: the request to the OS NGD API and the answer built from
    its response; every failure ends in the 500 of the [catch]. *)
Definition proxyUpstream (request : Request) (url : URL) (serviceType apiUrl : string)
  : Outcome :=
  Forward
    {| out_url := apiUrl;
       out_method := method request;
       out_headers := [("User-Agent", "MapSketch-Proxy/1.0"); ("Accept", "*/*")] |}
    (fun result =>
       match result with
       | Rejected message => failure "Proxy request failed" message
       | Resolved apiResponse =>
           let contentType := orDefault (up_contentType apiResponse) EmptyString in
           if includes contentType "application/json" then
             match up_json apiResponse with
             | SyntaxError message => failure "Proxy request failed" message
             | ParsedJSON data =>
                 match rewriteJSON url serviceType data with
                 | Normal responseBody =>
                     orFailure "Proxy request failed"
                       (dataResponse (up_status apiResponse) contentType
                          (Text responseBody))
                 | Throw e => failure "Proxy request failed" (Error_message e)
                 end
             end
           else
             orFailure "Proxy request failed"
               (dataResponse (up_status apiResponse) contentType
                  (Binary (up_arrayBuffer apiResponse)))
       end).

Definition fetch (request : Request) (env : Env) : Outcome :=
  if String.eqb (method request) "OPTIONS" then Reply preflight
  else
    let url := url request in
    let serviceType := sp_get "service" (searchParams url) in
    let hasWMSParams :=
      sp_has "BBOX" (searchParams url) || sp_has "bbox" (searchParams url) in
    let hasServiceParam :=
      sp_has "SERVICE" (searchParams url) || sp_has "service" (searchParams url) in
    if hasWMSParams
       && (match serviceType with Some t => String.eqb t "lidar" | None => false end
           || hasServiceParam)
    then handleLidarRequest url request
    else
      match serviceType with
      | None => Reply missingService
      | Some serviceType =>
          if String.eqb serviceType EmptyString then Reply missingService
          else if String.eqb serviceType "lidar" then handleLidarRequest url request
          else
            let apiKey := OS_NGD_API_KEY env in
            if String.eqb serviceType "tiles" then
              let collectionId := collectionOf url in
              let path := orDefault (sp_get "path" (searchParams url)) EmptyString in
              let apiUrl :=
                if negb (String.eqb path EmptyString) then
                  "https://api.os.uk/maps/vector/ngd/ota/v1/collections/"
                    +:+ collectionId +:+ "/" +:+ path +:+ "?key=" +:+ apiKey
                else
                  "https://api.os.uk/maps/vector/ngd/ota/v1/collections/"
                    +:+ collectionId +:+ "/styles/3857?key=" +:+ apiKey in
              proxyUpstream request url serviceType
                (withAdditional apiUrl (searchParams url))
            else if String.eqb serviceType "features" then
              let path := orDefault (sp_get "path" (searchParams url)) EmptyString in
              let apiUrl :=
                "https://api.os.uk/features/ngd/ofa/v1/" +:+ path +:+ "?key=" +:+ apiKey in
              proxyUpstream request url serviceType
                (withAdditional apiUrl (searchParams url))
            else Reply invalidService
      end.

End Handlers.

(** The handler sends a request upstream. *)
Definition goesUpstream (o : Outcome) : bool :=
  match o with Forward _ _ => true | Reply _ => false end.

(** The response of the handler, given what the upstream fetch gives when
    there is one. *)
Definition answer (o : Outcome) (result : FetchResult) : Response :=
  match o with
  | Reply r => r
  | Forward _ k => k result
  end.

(** A response carries the permissive cross-origin header. *)
Definition hasCORS (r : Response) : Prop := In CORS (headers r).

End Proxy.

(* ===================================================================== *)
(** ** sw.js: the service worker *)
(* ===================================================================== *)

Module SW.
Import Js.

Inductive ResponseType := basic | error.

(** A response: its type and status, the values of its [Vary] header (the
    header split at its commas; none when there is no such header), and its
    body. *)
Record Response := {
  res_type : ResponseType;
  res_status : nat;
  res_vary : list string;
  res_body : string
}.

(** [response.ok]. *)
Definition ok (r : Response) : bool :=
  (200 <=? res_status r) && (res_status r <=? 299).

(** [Response.error()]. *)
Definition Response_error : Response :=
  {| res_type := error; res_status := 0; res_vary := []; res_body := EmptyString |}.

(** A request: its method, its URL as [request.url] gives it, the
    [pathname] and [host] of [new URL(request.url)], and its headers. *)
Record Request := {
  req_method : string;
  req_url : string;
  req_pathname : string;
  req_host : string;
  req_headers : list (string * string)
}.

(** [await fetch(request)]: a response whatever its status, or a rejection. *)
Inductive NetResult := NetResponse (res : Response) | NetRejected.

(** One cache is the list of the requests stored and their responses, in
    the order they were stored; [caches] maps a name to the cache of that
    name. *)
Abbreviation Cache := (list (Request * Response)).
Abbreviation CacheStorage := (gmap string (list (Request * Response))).

(** The URL without its fragment. *)
Definition withoutFragment (u : string) : string :=
  takeWhile (fun c => negb (Ascii.eqb c "#")) u.

(** The value of a header in a header list: the values under that name,
    whatever the case of the name, joined by a comma and a space. *)
Definition headerGet (name : string) (hs : list (string * string)) : option string :=
  match List.filter (fun h => String.eqb (toLowerCase (fst h)) (toLowerCase name)) hs with
  | [] => None
  | h :: r => Some (fold_left (fun acc h' => acc +:+ ", " +:+ snd h') r (snd h))
  end.

Definition sameHeader (a b : option string) : bool :=
  match a, b with
  | Some x, Some y => String.eqb x y
  | None, None => true
  | _, _ => false
  end.

(** A request matches a stored pair (no option set): the stored request
    is a GET, the URLs are equal up to the fragment, and for each value of
    the stored response's [Vary] the value is not [*] and the two requests
    have the same value for that header. *)
Definition requestMatches (query : Request) (stored : Request * Response) : bool :=
  String.eqb (req_method (fst stored)) "GET"
  && String.eqb (withoutFragment (req_url query)) (withoutFragment (req_url (fst stored)))
  && forallb
       (fun field =>
          negb (String.eqb field "*")
          && sameHeader (headerGet field (req_headers (fst stored)))
                        (headerGet field (req_headers query)))
       (res_vary (snd stored)).

(** What [put] accepts: a GET request of scheme http or https, and a
    response that is not partial and whose [Vary] has no [*]. *)
Definition putAccepts (request : Request) (res : Response) : bool :=
  (startsWith (req_url request) "http:" || startsWith (req_url request) "https:")
  && String.eqb (req_method request) "GET"
  && negb (res_status res =? 206)
  && negb (existsb (String.eqb "*") (res_vary res)).

(** The version of sw.js as deployed. *)
Definition VERSION : string := "v1.2.0".

Definition SHELL : list string := ["/index.html"; "/manifest.webmanifest"].

Section Worker.
(** The handlers, for any value of the constant [VERSION]. *)
Variable version : string.

Definition APP_CACHE : string := "mapsketch-app-" +:+ version.
Definition RUNTIME_CACHE : string := "mapsketch-runtime-" +:+ version.

(** A name is one of the two current names: the test of the activate
    handler. *)
Definition current (k : string) : bool :=
  String.eqb k APP_CACHE || String.eqb k RUNTIME_CACHE.

(** [caches.keys()]. *)
Definition caches_keys (caches : CacheStorage) : list string :=
  (map_to_list caches).*1.

(** [caches.delete(k)]. *)
Definition caches_delete (k : string) (caches : CacheStorage) : CacheStorage :=
  delete k caches.

(** [caches.open(name)] creates the cache when there is none of that name. *)
Definition caches_open (name : string) (caches : CacheStorage) : CacheStorage :=
  match caches !! name with
  | Some _ => caches
  | None => <[name := []]> caches
  end.

(** [c.put(request, response)] on the cache [name], not awaited: a pair
    that is not accepted leaves the cache as it was (the promise rejects
    and nobody reads it); an accepted pair replaces the stored pairs that
    the request matches and goes last. *)
Definition cache_put (name : string) (request : Request) (res : Response)
    (caches : CacheStorage) : CacheStorage :=
  match caches !! name with
  | Some c =>
      if putAccepts request res then
        <[name := List.filter (fun e => negb (requestMatches request e)) c
                  ++ [(request, res)]]> caches
      else caches
  | None => caches
  end.

(** [await c.match(request)]: nothing for a request that is not a GET,
    and else the response of the first stored pair that the request
    matches. *)
Definition cache_match (name : string) (request : Request)
    (caches : CacheStorage) : option Response :=
  match caches !! name with
  | Some c =>
      if String.eqb (req_method request) "GET" then
        match List.find (requestMatches request) c with
        | Some e => Some (snd e)
        | None => None
        end
      else None
  | None => None
  end.

(** The activate handler: every key other than the two current names is
    deleted. *)
Definition activate (caches : CacheStorage) : CacheStorage :=
  let keys := caches_keys caches in
  fold_left
    (fun caches k =>
       if current k then caches else caches_delete k caches)
    keys caches.

Inductive Strategy := NetworkFirst | CacheFirst | StaleWhileRevalidate | Unhandled.

Definition assetExtensions : list string :=
  [".css"; ".js"; ".png"; ".jpg"; ".svg"; ".webp"; ".ico"; ".json"].

(** The three tests of the fetch handler, in its order. *)
Definition strategy (request : Request) : Strategy :=
  if String.eqb (req_pathname request) "/"
     || endsWith (req_pathname request) "/index.html"
  then NetworkFirst
  else if existsb (endsWith (req_pathname request)) assetExtensions
  then CacheFirst
  else if endsWith (req_host request) "tile.openstreetmap.org"
  then StaleWhileRevalidate
  else Unhandled.

(** Lines 28-38: the response, and the caches afterwards. *)
Definition networkFirst (request : Request) (net : NetResult)
    (caches : CacheStorage) : Response * CacheStorage :=
  match net with
  | NetResponse res =>
      let caches := caches_open APP_CACHE caches in
      let caches := cache_put APP_CACHE request res caches in
      (res, caches)
  | NetRejected =>
      let caches := caches_open APP_CACHE caches in
      match cache_match APP_CACHE request caches with
      | Some hit => (hit, caches)
      | None => (Response_error, caches)
      end
  end.

(** Lines 44-51; [None] when the handler's promise rejects with the fetch. *)
Definition cacheFirst (request : Request) (net : NetResult)
    (caches : CacheStorage) : option Response * CacheStorage :=
  let caches := caches_open APP_CACHE caches in
  match cache_match APP_CACHE request caches with
  | Some hit => (Some hit, caches)
  | None =>
      match net with
      | NetResponse res =>
          (Some res, if ok res then cache_put APP_CACHE request res caches else caches)
      | NetRejected => (None, caches)
      end
  end.

(** What the fetch handler does with a request.  The third strategy races
    the stored copy against the network; which of the two answers is not
    fixed here: the branch is recorded with both. *)
Inductive Handled :=
| Responded (res : option Response) (caches : CacheStorage)
| Raced (hit : option Response) (net : NetResult)
| NotIntercepted.

Definition onFetch (request : Request) (net : NetResult) (caches : CacheStorage)
  : Handled :=
  match strategy request with
  | NetworkFirst =>
      let '(res, caches) := networkFirst request net caches in
      Responded (Some res) caches
  | CacheFirst =>
      let '(res, caches) := cacheFirst request net caches in
      Responded res caches
  | StaleWhileRevalidate =>
      Raced (cache_match RUNTIME_CACHE request (caches_open RUNTIME_CACHE caches)) net
  | Unhandled => NotIntercepted
  end.

(** Lines 57-62, the third strategy, without fixing the race.  The promise
    [net] settles with the response of the network, put in the runtime
    cache when it is ok, or, the fetch rejected, with the stored copy
    ([None] for [undefined]).  With a stored copy the handler answers with
    the first to settle of [net] and the copy; without one, with [net]. *)
Definition revalidate (request : Request) (net : NetResult)
    (caches : CacheStorage) : option Response * CacheStorage :=
  let caches := caches_open RUNTIME_CACHE caches in
  let hit := cache_match RUNTIME_CACHE request caches in
  match net with
  | NetResponse r =>
      (Some r, if ok r then cache_put RUNTIME_CACHE request r caches else caches)
  | NetRejected => (hit, caches)
  end.

(** The answers the race can give, and the caches once [net] has settled. *)
Definition staleWhileRevalidate (request : Request) (net : NetResult)
    (caches : CacheStorage) : list (option Response) * CacheStorage :=
  let hit :=
    cache_match RUNTIME_CACHE request (caches_open RUNTIME_CACHE caches) in
  let '(fresh, caches') := revalidate request net caches in
  match hit with
  | Some _ => ([fresh; hit], caches')
  | None => ([fresh], caches')
  end.

(** The request [addAll] makes for a path of [SHELL], relative to the
    worker's location. *)
Definition shellRequest (origin host path : string) : Request :=
  {| req_method := "GET"; req_url := origin +:+ path; req_pathname := path;
     req_host := host; req_headers := [] |}.

Definition shellIndex (origin host : string) : Request :=
  shellRequest origin host "/index.html".
Definition shellManifest (origin host : string) : Request :=
  shellRequest origin host "/manifest.webmanifest".

(** What [addAll] accepts for a request: a response with an ok status that
    [put] accepts for it. *)
Definition storable (request : Request) (n : NetResult) : bool :=
  match n with
  | NetResponse r => ok r && putAccepts request r
  | NetRejected => false
  end.

(** [c.addAll(requests)]: every request is fetched; when all the responses
    are accepted they are all stored, and otherwise none is and the promise
    rejects ([None]). *)
Definition addAll (name : string) (requests : list Request)
    (net : Request -> NetResult) (caches : CacheStorage) : option CacheStorage :=
  if forallb (fun rq => storable rq (net rq)) requests then
    Some (fold_left
            (fun caches rq =>
               match net rq with
               | NetResponse r => cache_put name rq r caches
               | NetRejected => caches
               end)
            requests caches)
  else None.

(** The install handler: whether the installation succeeded (and
    [skipWaiting] was called), and the caches afterwards. *)
Definition install (origin host : string) (net : Request -> NetResult)
    (caches : CacheStorage) : bool * CacheStorage :=
  let caches := caches_open APP_CACHE caches in
  match addAll APP_CACHE (map (shellRequest origin host) SHELL) net caches with
  | Some caches' => (true, caches')
  | None => (false, caches)
  end.

End Worker.

End SW.

(* ===================================================================== *)
(** ** Inputs for the examples *)
(* ===================================================================== *)

(** Parsed bodies of the upstream. *)
Module Examples.
Import Js Proxy.

Definition tilesUrl : URL :=
  {| origin := "https://proxy.example"; searchParams := [("service", "tiles")] |}.

Definition featuresUrl : URL :=
  {| origin := "https://proxy.example";
     searchParams := [("service", "features"); ("path", "collections")] |}.

(** A style document as the OS NGD API serves it. *)
Definition style : JSON :=
  JObject
    [ ("version", JNumber 8);
      ("sources",
        JObject
          [ ("ngd-base",
              JObject
                [ ("type", JString "vector");
                  ("url", JString "https://api.os.uk/maps/vector/ngd/ota/v1/collections/ngd-base/tiles/3857?key=ABC123") ]) ]);
      ("sprite", JString "https://api.os.uk/sprites/sprite?key=ABC123");
      ("center", JArray [JNumber (-1.5); JNumber 52.25]);
      ("zoom", JNumber 7) ].

(** A body with the key as a query parameter, and with the text [key=] in a
    parameter of another name. *)
Definition twoKeys : JSON :=
  JObject
    [ ("sprite", JString "https://api.os.uk/sprites/sprite?key=ABC123");
      ("glyphs", JString "https://fonts.example/glyphs?apikey=ABC123") ].

Definition twoKeysRedacted : JSON :=
  JObject
    [ ("sprite", JString "https://api.os.uk/sprites/sprite");
      ("glyphs", JString "https://fonts.example/glyphs?apikey=ABC123") ].

(** A source whose [url] is the empty string, and one whose [url] is a
    number. *)
Definition emptyUrl : JSON :=
  JObject
    [ ("sources",
        JObject [ ("ngd-base", JObject [("type", JString "vector"); ("url", JString EmptyString)]) ]) ].

Definition numberUrl : JSON :=
  JObject
    [ ("sources",
        JObject [ ("ngd-base", JObject [("type", JString "vector"); ("url", JNumber 1)]) ]) ].

(** A features payload that happens to have [center] and [zoom]. *)
Definition featureView : JSON :=
  JObject
    [ ("title", JString "Buildings");
      ("center", JArray [JNumber (-1.5); JNumber 52.25]);
      ("zoom", JNumber 7) ].

End Examples.

(** Requests to the proxy. *)
Module Requests.
Import Js Proxy.

Definition env : Env := {| OS_NGD_API_KEY := "ABC123" |}.

Definition get (params : Params) : Request :=
  {| method := "GET"; url := {| origin := "https://proxy.example"; searchParams := params |} |}.

(** A request with nothing in its query, and the same as a preflight. *)
Definition bare : Request := get [].
Definition options : Request :=
  {| method := "OPTIONS"; url := {| origin := "https://proxy.example"; searchParams := [] |} |}.

(** A request with a bounding box and no service parameter. *)
Definition bboxOnly : Request := get [("BBOX", "-3.1,51.9,-2.9,52.1")].

(** A WMS request as a map client sends it, keys in lower case, to the
    proxy's [?service=lidar]. *)
Definition wmsLower : Request :=
  get [ ("service", "lidar"); ("service", "WMS"); ("request", "GetMap");
        ("layers", "caller_layer"); ("bbox", "-3.1,51.9,-2.9,52.1") ].

(** A request for the style of the default collection, and one for a
    service that does not exist. *)
Definition tiles : Request := get [("service", "tiles")].
Definition elevation : Request := get [("service", "elevation"); ("x", "1")].

End Requests.

(** Answers of the upstream. *)
Module Upstreams.
Import Js Proxy.

Definition png (st : nat) : Upstream :=
  {| up_status := st; up_contentType := Some "image/png";
     up_json := SyntaxError "Unexpected token"; up_arrayBuffer := "PNG" |}.

Definition styleJSON : Upstream :=
  {| up_status := 200; up_contentType := Some "application/json; charset=utf-8";
     up_json := ParsedJSON Examples.style; up_arrayBuffer := EmptyString |}.

End Upstreams.

(** Cache stores of the service worker. *)
Module Stores.
Import Js SW.

Definition page (st : nat) (text : string) : Response :=
  {| res_type := basic; res_status := st; res_vary := []; res_body := text |}.

Definition get (path : string) : Request :=
  {| req_method := "GET";
     req_url := "https://mapsketch.example" +:+ path;
     req_pathname := path;
     req_host := "mapsketch.example";
     req_headers := [] |}.

Definition index : Request := get "/index.html".

(** A form posted to the root, and a response that varies on every
    header. *)
Definition post : Request :=
  {| req_method := "POST";
     req_url := "https://mapsketch.example/";
     req_pathname := "/";
     req_host := "mapsketch.example";
     req_headers := [] |}.

Definition varying (st : nat) (text : string) : Response :=
  {| res_type := basic; res_status := st; res_vary := ["*"]; res_body := text |}.

Definition tile : Request :=
  {| req_method := "GET";
     req_url := "https://a.tile.openstreetmap.org/1/0/0.png";
     req_pathname := "/1/0/0.png";
     req_host := "a.tile.openstreetmap.org";
     req_headers := [] |}.

Definition shell : Cache := [(index, page 200 "<html>")].
Definition tiles : Cache := [(tile, page 200 "png")].

(** The stores of two versions and one of another origin. *)
Definition mixed : CacheStorage :=
  {[ "mapsketch-app-v1" := shell; "mapsketch-runtime-v1" := tiles;
     "mapsketch-app-v0" := shell; "mapsketch-runtime-v0" := tiles;
     "unrelated-cache" := [] ]}.

Definition survivors : CacheStorage :=
  {[ "mapsketch-app-v1" := shell; "mapsketch-runtime-v1" := tiles ]}.

(** A tile asked for without an extension. *)
Definition bareTile : Request :=
  {| req_method := "GET";
     req_url := "https://tile.openstreetmap.org/1/0/0";
     req_pathname := "/1/0/0";
     req_host := "tile.openstreetmap.org";
     req_headers := [] |}.

(** A script of the application, and a network that answers every request
    with a page that has its path for body. *)
Definition script : Request := get "/app.js".

(** The app cache of the version before. *)
Definition previous : CacheStorage := {[ "mapsketch-app-v1.1.0" := shell ]}.

End Stores.

(* ===================================================================== *)
(** ** Theorems: the Region Resolver *)
(* ===================================================================== *)

Section RegionFacts.
Import Js Proxy.
Context `{Host}.
Local Open Scope float_scope.

Lemma SFmul_comm (x y : spec_float) : SFmul prec emax x y = SFmul prec emax y x.
Proof.
  destruct x as [sx|sx| |sx mx ex], y as [sy|sy| |sy my ey]; simpl;
    try reflexivity; try (now rewrite xorb_comm).
  now rewrite xorb_comm, Pos.mul_comm, Z.add_comm.
Qed.

(** Multiplication of binary64 numbers is commutative. *)
Lemma float_mul_comm (x y : float) : x * y = y * x.
Proof.
  apply Prim2SF_inj. rewrite !mul_spec. apply SFmul_comm.
Qed.

(** [2 * Math.PI * 6378137 / 2.0] is the product [Math.PI * 6378137]. *)
Lemma originShift_value :
  2 * Math_PI * 6378137 / 2.0 = Math_PI * 6378137
  /\ Math_PI * 6378137 = 20037508.342789244.
Proof. split; vm_compute; reflexivity. Qed.

(** C3. For every centre (x, y): when |x| > 20000 or |y| > 20000 the
    geographic coordinates are lon = (x / originShift) * 180 and
    lat = (2 * atan(exp((y / originShift) * pi)) - pi/2) * (180 / pi) with
    originShift = pi * 6378137; otherwise they are (x, y) unchanged. *)
Theorem geographicCenter_formula (x y : float) :
  geographicCenter x y =
    if (20000 <? abs x) || (20000 <? abs y) then
      let originShift := Math_PI * 6378137 in
      ((x / originShift) * 180,
       (2 * Math_atan (Math_exp ((y / originShift) * Math_PI)) - Math_PI / 2)
       * (180 / Math_PI))
    else (x, y).
Proof.
  unfold geographicCenter.
  destruct ((20000 <? abs x) || (20000 <? abs y))%bool; [|reflexivity].
  cbv zeta. destruct originShift_value as [-> _].
  now rewrite (float_mul_comm 2).
Qed.

(** C1, as the code has it. A string that does not split at its commas into
    exactly four pieces resolves to england. Otherwise each piece is read by
    parseFloat, the centre of the box is made geographic, and the four rules
    are tried in order, the first that holds giving the region: latitude >
    55.3 scotland (whatever the longitude), longitude < -2.5 and 51.3 <
    latitude < 53.5 wales, longitude < -5.5 and 54.0 < latitude < 55.5
    northern_ireland, else england. [detectRegion] is a function into the
    four regions: every input gets exactly one. *)
Theorem detectRegion_rules (bboxString : string) :
  (List.length (split "," bboxString) <> 4%nat -> detectRegion bboxString = england)
  /\ detectRegion bboxString =
       match map parseFloat (split "," bboxString) with
       | [minX; minY; maxX; maxY] =>
           let '(lon, lat) :=
             geographicCenter ((minX + maxX) / 2) ((minY + maxY) / 2) in
           if 55.3 <? lat then scotland
           else if ((lon <? -2.5) && (51.3 <? lat) && (lat <? 53.5))%bool then wales
           else if ((lon <? -5.5) && (54.0 <? lat) && (lat <? 55.5))%bool
           then northern_ireland
           else england
       | _ => england
       end.
Proof.
  split.
  - intros Hlen. unfold detectRegion.
    rewrite length_map.
    destruct (Nat.eqb_spec (List.length (split "," bboxString)) 4) as [E|E];
      [contradiction | reflexivity].
  - unfold detectRegion.
    destruct (map parseFloat (split "," bboxString))
      as [|minX [|minY [|maxX [|maxY [|extra rest]]]]]; reflexivity.
Qed.

End RegionFacts.

(** The resolver on boxes in degrees and in Web-Mercator metres, with the
    reference host: the centres (-3, 52), (-6, 54.5) and (-0.1, 51.5), a box
    north of 55.3, and London and Cardiff in metres. *)
Example detectRegion_examples :
  map (Proxy.detectRegion (H := Js.refHost))
    [ "-3.1,51.9,-2.9,52.1"; "-6.1,54.4,-5.9,54.6"; "-0.2,51.4,0,51.6";
      "-4.3,56.9,-4.1,57.1"; "-11169,6710000,-11169,6710000";
      "-360000,6700000,-350000,6710000"; "1,2,3"; "1,2,3,4,5" ]
  = [ Proxy.wales; Proxy.northern_ireland; Proxy.england; Proxy.scotland;
      Proxy.england; Proxy.wales; Proxy.england; Proxy.england ].
Proof. vm_compute. reflexivity. Qed.

(** C1, the claim as stated, fails: ["x,56,x,56"] is not four numbers, its
    pieces read as NaN, 56, NaN, 56, the centre has latitude 56 and no
    longitude, and the first rule answers scotland. *)
Lemma detectRegion_not_numbers_scotland :
  map Js.ref_parseFloat (Js.split "," "x,56,x,56") = [nan; 56%float; nan; 56%float]
  /\ Proxy.detectRegion (H := Js.refHost) "x,56,x,56" = Proxy.scotland.
Proof. split; vm_compute; reflexivity. Qed.

(* ===================================================================== *)
(** ** Theorems: the redaction pass *)
(* ===================================================================== *)

Section Redaction.
Import Js.

Lemma dropN_length (n : nat) (s : string) : String.length (dropN n s) <= String.length s.
Proof.
  revert s; induction n as [|n IH]; intros [|c t]; simpl; try lia.
  specialize (IH t). lia.
Qed.

Lemma replaceAll_dropN (m : string -> option nat) (k : nat) (s : string) :
  replaceAll m k s = replaceAll m 0 (dropN k s).
Proof.
  revert k; induction s as [|c t IH]; intros [|k]; try reflexivity.
  simpl. apply IH.
Qed.

(** Induction along the scan of [replaceAll]. *)
Lemma replaceAll_scan (m : string -> option nat) (P : string -> string -> Prop) :
  P EmptyString EmptyString ->
  (forall c t n, m (String c t) = Some (S n) ->
     P (dropN n t) (replaceAll m 0 (dropN n t)) ->
     P (String c t) (replaceAll m 0 (dropN n t))) ->
  (forall c t, (forall n, m (String c t) <> Some (S n)) ->
     P t (replaceAll m 0 t) ->
     P (String c t) (String c (replaceAll m 0 t))) ->
  forall s, P s (replaceAll m 0 s).
Proof.
  intros Hnil Hhit Hmiss s.
  remember (String.length s) as k eqn:Hk. revert s Hk.
  induction k as [k IH] using lt_wf_ind. intros [|c t] Hk; [exact Hnil|].
  simpl in *. destruct (m (String c t)) as [[|n]|] eqn:E.
  - apply Hmiss; [congruence|]. apply (IH (String.length t)); [lia | reflexivity].
  - rewrite replaceAll_dropN. apply Hhit; [exact E|].
    apply (IH (String.length (dropN n t))); [|reflexivity].
    pose proof (dropN_length n t). lia.
  - apply Hmiss; [congruence|]. apply (IH (String.length t)); [lia | reflexivity].
Qed.

Lemma stripPrefix_app (p s r : string) : stripPrefix p s = Some r -> s = p +:+ r.
Proof.
  revert s; induction p as [|a p IH]; intros s Hs; simpl in *.
  - now injection Hs as ->.
  - destruct s as [|b s]; [discriminate|].
    destruct (Ascii.eqb_spec a b) as [->|]; [|discriminate].
    change (String b p +:+ r) with (String b (p +:+ r)). f_equal. now apply IH.
Qed.

Lemma stripPrefix_of_app (p r : string) : stripPrefix p (p +:+ r) = Some r.
Proof.
  induction p as [|a p IH]; simpl; [reflexivity|].
  now rewrite Ascii.eqb_refl.
Qed.

Lemma dropN_takeWhile (p : ascii -> bool) (s : string) :
  dropN (String.length (takeWhile p s)) s = dropWhile p s.
Proof.
  induction s as [|c t IH]; simpl; [reflexivity|].
  destruct (p c); simpl; [exact IH | reflexivity].
Qed.

Lemma dropWhile_stopped (s : string) : stopped (dropWhile keyChar s).
Proof.
  induction s as [|c t IH]; simpl; [exact I|].
  destruct (keyChar c) eqn:E; [exact IH | exact E].
Qed.

(** The shape of a text with a match at its head. *)
Lemma keyMatch_Some (lead : ascii) (s : string) (n : nat) :
  keyMatch lead s = Some n ->
  exists x r, s = String lead ("key=" +:+ String x r) /\ keyChar x = true
              /\ n = 6 + String.length (takeWhile keyChar r).
Proof.
  unfold keyMatch. destruct (stripPrefix (String lead "key=") s) as [rest|] eqn:E;
    [|discriminate].
  apply stripPrefix_app in E. subst s.
  destruct rest as [|x r]; simpl; [discriminate|].
  destruct (keyChar x) eqn:Ex; simpl; [|discriminate].
  intros [= <-]. exists x, r. split; [reflexivity | split; [exact Ex | reflexivity]].
Qed.

Lemma keyMatch_head (lead x : ascii) (r : string) :
  keyChar x = true ->
  keyMatch lead (String lead ("key=" +:+ String x r))
  = Some (6 + String.length (takeWhile keyChar r)).
Proof.
  intros Ex. unfold keyMatch.
  change (String lead ("key=" +:+ String x r)) with (String lead "key=" +:+ String x r).
  rewrite stripPrefix_of_app. simpl. now rewrite Ex.
Qed.

(** After a match the text is [stopped]. *)
Lemma keyMatch_stopped (lead c : ascii) (t : string) (n : nat) :
  keyMatch lead (String c t) = Some (S n) -> stopped (dropN n t).
Proof.
  intros E. apply keyMatch_Some in E as (x & r & Hs & Hx & Hn).
  injection Hs as -> ->. injection Hn as ->.
  change (stopped (dropN (String.length (takeWhile keyChar r)) r)).
  rewrite dropN_takeWhile. apply dropWhile_stopped.
Qed.

Lemma keyMatch_positive (lead : ascii) (s : string) : keyMatch lead s <> Some 0.
Proof. intros E. apply keyMatch_Some in E as (? & ? & _ & _ & ?). lia. Qed.

Lemma replaceAll_stopped (lead : ascii) (s : string) :
  stopped s -> stopped (replaceAll (keyMatch lead) 0 s).
Proof.
  pattern s, (replaceAll (keyMatch lead) 0 s). apply replaceAll_scan.
  - trivial.
  - intros c t n E IH _. apply IH. eapply keyMatch_stopped, E.
  - intros c t _ _ Hc. exact Hc.
Qed.

(** A key character at the head of the output was at the head of the input,
    and was copied. *)
Lemma replaceAll_head (lead x : ascii) (t r : string) :
  keyChar x = true ->
  replaceAll (keyMatch lead) 0 t = String x r ->
  exists t', t = String x t' /\ replaceAll (keyMatch lead) 0 t' = r.
Proof.
  intros Hx. destruct t as [|c t']; [discriminate|]. simpl.
  destruct (keyMatch lead (String c t')) as [[|n]|] eqn:E.
  - intros [= -> Hr]. eauto.
  - intros Hout. exfalso.
    pose proof (replaceAll_stopped lead _ (keyMatch_stopped _ _ _ _ E)) as Hs.
    rewrite <- replaceAll_dropN, Hout in Hs. simpl in Hs. congruence.
  - intros [= -> Hr]. eauto.
Qed.

(** A match at a position of the output is a match at the position of the
    input it was copied from. *)
Lemma keyMatch_replaceAll (l lead c : ascii) (t : string) (n : nat) :
  keyMatch l (String c (replaceAll (keyMatch lead) 0 t)) = Some n ->
  exists n', keyMatch l (String c t) = Some n'.
Proof.
  intros E. apply keyMatch_Some in E as (x & r & Hs & Hx & _).
  injection Hs as -> Hout. simpl in Hout.
  apply replaceAll_head in Hout as (t1 & -> & Hout); [|reflexivity].
  apply replaceAll_head in Hout as (t2 & -> & Hout); [|reflexivity].
  apply replaceAll_head in Hout as (t3 & -> & Hout); [|reflexivity].
  apply replaceAll_head in Hout as (t4 & -> & Hout); [|reflexivity].
  apply replaceAll_head in Hout as (t5 & -> & Hout); [|exact Hx].
  eexists. apply (keyMatch_head l x t5 Hx).
Qed.

Lemma hasKey_String (l c : ascii) (t : string) :
  hasKey l (String c t) = false <->
  keyMatch l (String c t) = None /\ hasKey l t = false.
Proof.
  cbn [hasKey]. destruct (keyMatch l (String c t)) as [n|].
  - split; [discriminate | intros [E _]; discriminate].
  - split; [intros Ht; split; [reflexivity | exact Ht] | intros [_ Ht]; exact Ht].
Qed.

Lemma hasKey_dropN (l : ascii) (n : nat) (s : string) :
  hasKey l s = false -> hasKey l (dropN n s) = false.
Proof.
  revert s; induction n as [|n IH]; intros [|c t] Hs; simpl; try exact Hs.
  apply IH. now apply hasKey_String in Hs.
Qed.

(** One pass leaves no match of another expression where there was none. *)
Lemma replaceAll_preserves (l lead : ascii) (s : string) :
  hasKey l s = false -> hasKey l (replaceAll (keyMatch lead) 0 s) = false.
Proof.
  pattern s, (replaceAll (keyMatch lead) 0 s). apply replaceAll_scan.
  - trivial.
  - intros c t n E IH Hs. apply IH.
    apply hasKey_String in Hs as [_ Hs]. now apply hasKey_dropN.
  - intros c t _ IH Hs. apply hasKey_String in Hs as [Hc Ht].
    apply hasKey_String. split; [|now apply IH].
    destruct (keyMatch l (String c (replaceAll (keyMatch lead) 0 t))) as [n|] eqn:E;
      [|reflexivity].
    apply keyMatch_replaceAll in E as [n' E]. congruence.
Qed.

(** One pass leaves no match of its own expression. *)
Lemma replaceAll_removes (lead : ascii) (s : string) :
  hasKey lead (replaceAll (keyMatch lead) 0 s) = false.
Proof.
  pattern s, (replaceAll (keyMatch lead) 0 s). apply replaceAll_scan.
  - reflexivity.
  - intros c t n _ IH. exact IH.
  - intros c t Hmiss IH. apply hasKey_String. split; [|exact IH].
    destruct (keyMatch lead (String c (replaceAll (keyMatch lead) 0 t))) as [n|] eqn:E;
      [|reflexivity].
    apply keyMatch_replaceAll in E as [[|n'] E].
    + now apply keyMatch_positive in E.
    + now apply Hmiss in E.
Qed.

Lemma redact_clean (jsonText : string) :
  hasKey "?" (Proxy.redact jsonText) = false /\ hasKey "&" (Proxy.redact jsonText) = false.
Proof.
  unfold Proxy.redact. split.
  - apply replaceAll_preserves, replaceAll_removes.
  - apply replaceAll_removes.
Qed.

(** A text that includes [<lead>key=] followed by a key character has a
    match. *)
Lemma includes_hasKey (lead x : ascii) (w s : string) :
  keyChar x = true ->
  includes s (String lead ("key=" +:+ String x w)) = true -> hasKey lead s = true.
Proof.
  intros Hx. induction s as [|c t IH].
  - simpl. discriminate.
  - intros Hin. cbn [includes] in Hin. apply orb_true_iff in Hin as [Hin|Hin].
    + unfold startsWith in Hin.
      destruct (stripPrefix _ (String c t)) as [r|] eqn:E; [|discriminate].
      apply stripPrefix_app in E. cbn [hasKey]. rewrite E.
      change (String lead ("key=" +:+ String x w) +:+ r)
        with (String lead ("key=" +:+ String x (w +:+ r))).
      now rewrite keyMatch_head.
    + cbn [hasKey]. destruct (keyMatch lead (String c t)); [reflexivity|]. now apply IH.
Qed.

End Redaction.

(* ===================================================================== *)
(** ** Theorems: the Response Rewriter *)
(* ===================================================================== *)

Section Objects.
Import Js.

Lemma assoc_assocSet_eq (k : string) (v : JSON) (ms : list (string * JSON)) :
  assoc k (assocSet k v ms) = Some v.
Proof.
  induction ms as [|[k' v'] r IH]; simpl.
  - now rewrite String.eqb_refl.
  - destruct (String.eqb k' k) eqn:E; simpl; rewrite E; [reflexivity | exact IH].
Qed.

Lemma assoc_assocSet_ne (k k' : string) (v : JSON) (ms : list (string * JSON)) :
  k <> k' -> assoc k' (assocSet k v ms) = assoc k' ms.
Proof.
  intros Hne. induction ms as [|[k0 v0] r IH]; simpl.
  - destruct (String.eqb_spec k k'); [contradiction | reflexivity].
  - destruct (String.eqb_spec k0 k) as [->|]; simpl.
    + destruct (String.eqb_spec k k'); [contradiction | reflexivity].
    + now rewrite IH.
Qed.

Lemma assoc_assocDelete_eq (k : string) (ms : list (string * JSON)) :
  assoc k (assocDelete k ms) = None.
Proof.
  induction ms as [|[k' v'] r IH]; simpl; [reflexivity|].
  destruct (String.eqb k' k) eqn:E; simpl; [exact IH | now rewrite E].
Qed.

Lemma assoc_assocDelete_ne (k k' : string) (ms : list (string * JSON)) :
  k <> k' -> assoc k' (assocDelete k ms) = assoc k' ms.
Proof.
  intros Hne. induction ms as [|[k0 v0] r IH]; simpl; [reflexivity|].
  destruct (String.eqb_spec k0 k) as [->|]; simpl.
  - destruct (String.eqb_spec k k'); [contradiction | exact IH].
  - now rewrite IH.
Qed.

Lemma nth_error_listSet (i : nat) (v x : JSON) (xs : list JSON) :
  nth_error xs i = Some x -> nth_error (listSet i v xs) i = Some v.
Proof.
  revert i; induction xs as [|y r IH]; intros [|i]; simpl; try discriminate.
  - reflexivity.
  - apply IH.
Qed.

Lemma getProp_setProp (o : JSON) (k : string) (v x : JSON) :
  getProp o k = Some x -> getProp (setProp o k v) k = Some v.
Proof.
  destruct o; simpl; try discriminate.
  - destruct (arrayIndex k) as [i|] eqn:E; [|discriminate].
    simpl. rewrite E. apply nth_error_listSet.
  - intros _. apply assoc_assocSet_eq.
Qed.

Lemma getProp_deleteProp_ne (o : JSON) (k k' : string) :
  k <> k' -> getProp (deleteProp o k) k' = getProp o k'.
Proof.
  intros Hne. destruct o; simpl; try reflexivity. now apply assoc_assocDelete_ne.
Qed.

Lemma getProp_deleteProp (o : JSON) (k : string) :
  arrayIndex k = None -> getProp (deleteProp o k) k = None.
Proof.
  intros Hk. destruct o; simpl; try reflexivity.
  - now rewrite Hk.
  - apply assoc_assocDelete_eq.
Qed.

(** Only objects and arrays have properties, and they are truthy. *)
Lemma getProp_truthy (o : JSON) (k : string) (x : JSON) :
  getProp o k = Some x -> truthy o = true.
Proof. destruct o; simpl; try discriminate; reflexivity. Qed.

(** A value with a member that is no array index is an object. *)
Lemma getProp_object (o : JSON) (k : string) (x : JSON) :
  arrayIndex k = None -> getProp o k = Some x -> exists ms, o = JObject ms.
Proof.
  intros Hk. destruct o; simpl; try discriminate.
  - now rewrite Hk.
  - eauto.
Qed.

End Objects.

Section Rewriter.
Import Js Proxy.
Context `{Host}.

(** C5, as the code has it. For a tiles request whose parsed body has a
    [sources] entry keyed by the request's collection, with a [url] that is
    a non-empty string: the rewriter succeeds; in the data it serializes the
    source has no [url] and has a [tiles] array holding exactly the one
    template URL pointing back at the proxy, and there is no top-level
    [center] or [zoom]; the output is the redaction of that data's text. *)
Theorem rewriteStyle_tiles_source
    (url : URL) (data srcs src : JSON) (u : string) :
  getProp data "sources" = Some srcs ->
  getProp srcs (collectionOf url) = Some src ->
  getProp src "url" = Some (JString u) ->
  u <> EmptyString ->
  exists data' srcs' src',
    rewriteStyle url "tiles" data = Normal data'
    /\ rewriteJSON url "tiles" data = Normal (redact (stringify data'))
    /\ getProp data' "sources" = Some srcs'
    /\ getProp srcs' (collectionOf url) = Some src'
    /\ getProp src' "url" = None
    /\ getProp src' "tiles" = Some (JArray [JString (origin url +:+ "?service=tiles&collection=" +:+ collectionOf url +:+ "&path=tiles/3857/{z}/{y}/{x}")])
    /\ getProp data' "center" = None
    /\ getProp data' "zoom" = None.
Proof.
  intros Hsources Hsource Hurl Hu.
  destruct (getProp_object data "sources" srcs eq_refl Hsources) as [ms ->].
  destruct (getProp_object src "url" _ eq_refl Hurl) as [fs ->].
  set (src2 := deleteProp (setProp (JObject fs) "tiles"
                 (JArray [JString (tilesTemplate url (collectionOf url))])) "url").
  set (data1 := setProp (JObject ms) "sources" (setProp srcs (collectionOf url) src2)).
  assert (Hrun : rewriteStyle url "tiles" (JObject ms)
                 = Normal (deleteProp (deleteProp data1 "center") "zoom")).
  { unfold rewriteStyle. cbn [isNull]. rewrite Hsources.
    cbn [truthyOpt getProp2]. rewrite (getProp_truthy _ _ _ Hsource).
    rewrite Hsource. cbn [truthyOpt getProp2]. rewrite Hurl.
    cbn [truthyOpt truthy]. 
    destruct (String.eqb_spec u EmptyString) as [->|_]; [contradiction|].
    reflexivity. }
  exists (deleteProp (deleteProp data1 "center") "zoom"),
         (setProp srcs (collectionOf url) src2), src2.
  split; [exact Hrun|].
  split; [unfold rewriteJSON; now rewrite Hrun|].
  split.
  { rewrite !getProp_deleteProp_ne by discriminate.
    unfold data1. eapply getProp_setProp, Hsources. }
  split; [eapply getProp_setProp, Hsource|].
  split; [apply getProp_deleteProp; reflexivity|].
  split.
  { unfold src2. rewrite getProp_deleteProp_ne by discriminate.
    simpl. apply assoc_assocSet_eq. }
  split.
  - rewrite getProp_deleteProp_ne by discriminate. apply getProp_deleteProp; reflexivity.
  - apply getProp_deleteProp; reflexivity.
Qed.


(** What the rewriter does to [center] and [zoom], and when it throws. *)
Lemma rewriteStyle_cases (url : URL) (serviceType : string) (data : JSON) :
  match rewriteStyle url serviceType data with
  | Normal data' =>
      if truthyOpt (getProp data "sources") && String.eqb serviceType "tiles"
      then getProp data' "center" = None /\ getProp data' "zoom" = None
      else data' = data
  | Throw _ =>
      data = JNull
      \/ (truthyOpt (getProp data "sources") && String.eqb serviceType "tiles" = true
          /\ exists v,
               getProp2 (getProp2 (getProp data "sources") (collectionOf url)) "url"
               = Some v
               /\ truthy v = true /\ forall u, v <> JString u)
  end.
Proof.
  unfold rewriteStyle. destruct (isNull data) eqn:Hnull.
  { left. now destruct data. }
  destruct (truthyOpt (getProp data "sources") && String.eqb serviceType "tiles");
    [|reflexivity].
  set (source := getProp2 (getProp data "sources") (collectionOf url)).
  assert (Hdel : forall d,
             getProp (deleteProp (deleteProp d "center") "zoom") "center" = None
             /\ getProp (deleteProp (deleteProp d "center") "zoom") "zoom" = None).
  { intros d. split.
    - rewrite getProp_deleteProp_ne by discriminate. now apply getProp_deleteProp.
    - now apply getProp_deleteProp. }
  destruct (truthyOpt source && truthyOpt (getProp2 source "url")) eqn:Hguard;
    cbv zeta; [|apply Hdel].
  apply andb_true_iff in Hguard as [_ Hurl].
  destruct (getProp data "sources") as [srcs|]; [|discriminate].
  destruct source as [src|]; [|discriminate].
  destruct (getProp2 (Some src) "url") as [v|] eqn:Ev; [|discriminate].
  destruct v; try apply Hdel;
    right; (split; [reflexivity|]); eexists;
    (split; [reflexivity | split; [exact Hurl | discriminate]]).
Qed.

(** C9, as the code has it. For a parsed body that is not null: when the
    body has a truthy [sources] and the request is a tiles request (and the
    [url] of the source keyed by the collection, if truthy, is a string),
    the rewriter removes the top-level [center] and [zoom] from the data it
    serializes, whether or not a source was rewritten; for every other
    payload, whatever its [sources] hold, the data is serialized as it was
    parsed. The output is the redaction of the serialized text. *)
Theorem rewriteJSON_center_zoom (url : URL) (serviceType : string) (data : JSON) :
  data <> JNull ->
  (truthyOpt (getProp data "sources") && String.eqb serviceType "tiles" = true ->
   forall v,
     getProp2 (getProp2 (getProp data "sources") (collectionOf url)) "url" = Some v ->
     truthy v = true -> exists u, v = JString u) ->
  exists data',
    rewriteStyle url serviceType data = Normal data'
    /\ rewriteJSON url serviceType data = Normal (redact (stringify data'))
    /\ if truthyOpt (getProp data "sources") && String.eqb serviceType "tiles"
       then getProp data' "center" = None /\ getProp data' "zoom" = None
       else data' = data.
Proof.
  intros Hnull Hstr. pose proof (rewriteStyle_cases url serviceType data) as Hc.
  unfold rewriteJSON. destruct (rewriteStyle url serviceType data) as [data'|e].
  - exists data'. auto.
  - exfalso. destruct Hc as [->|(Hguard & v & Hv & Ht & Hns)]; [now apply Hnull|].
    destruct (Hstr Hguard v Hv Ht) as [u ->]. now apply (Hns u).
Qed.

(** C2, as the code has it. In the output of the rewriter no position
    starts [?key=] or [&key=] followed by a key character (a character other
    than the double quote and the ampersand); in particular the output
    includes neither [?key=ABC123] nor [&key=ABC123]. *)
Theorem rewriteJSON_redacts (url : URL) (serviceType : string) (data : JSON)
    (out : string) :
  rewriteJSON url serviceType data = Normal out ->
  hasKey "?" out = false /\ hasKey "&" out = false
  /\ includes out "?key=ABC123" = false /\ includes out "&key=ABC123" = false.
Proof.
  unfold rewriteJSON. destruct (rewriteStyle url serviceType data) as [data'|e];
    [|discriminate].
  intros [= <-]. destruct (redact_clean (stringify data')) as [Hq Ha].
  repeat split; try assumption.
  - destruct (includes _ "?key=ABC123") eqn:E; [|reflexivity].
    apply (includes_hasKey "?" "A" "BC123") in E; [congruence | reflexivity].
  - destruct (includes _ "&key=ABC123") eqn:E; [|reflexivity].
    apply (includes_hasKey "&" "A" "BC123") in E; [congruence | reflexivity].
Qed.

End Rewriter.


(** C2, the claim as stated, fails: the body includes [?key=ABC123], and the
    output still includes the text [key=]. *)
Lemma redaction_leaves_other_key_text :
  Js.includes (Js.stringify (H := Js.refHost) Examples.twoKeys) "?key=ABC123" = true
  /\ Proxy.rewriteJSON (H := Js.refHost) Examples.tilesUrl "tiles" Examples.twoKeys
     = Proxy.Normal (Js.stringify (H := Js.refHost) Examples.twoKeysRedacted)
  /\ Js.includes (Js.stringify (H := Js.refHost) Examples.twoKeysRedacted) "key=" = true.
Proof. repeat split; vm_compute; reflexivity. Qed.

(** C2 on the style document: the rewriter succeeds and its output has no
    key parameter. *)
Lemma rewriteJSON_redacts_witness :
  exists out,
    Proxy.rewriteJSON (H := Js.refHost) Examples.tilesUrl "tiles" Examples.style
    = Proxy.Normal out
    /\ Js.hasKey "?" out = false /\ Js.hasKey "&" out = false
    /\ Js.includes out "?key=ABC123" = false /\ Js.includes out "&key=ABC123" = false.
Proof.
  eexists. split; [vm_compute; reflexivity|].
  apply (rewriteJSON_redacts (H := Js.refHost) Examples.tilesUrl "tiles" Examples.style).
  vm_compute; reflexivity.
Defined.

(** The redaction works on the text, member names included: it can turn the
    name [center?key=x] into [center]. The statements about members are
    therefore made on the data that is serialized. *)
Example redaction_shortens_member_name :
  Proxy.rewriteJSON (H := Js.refHost) Examples.tilesUrl "tiles"
    (Js.JObject [("sources", Js.JObject []); ("center?key=x", Js.JNumber 1)])
  = Proxy.Normal
      (Js.stringify (H := Js.refHost)
         (Js.JObject [("sources", Js.JObject []); ("center", Js.JNumber 1)])).
Proof. vm_compute. reflexivity. Qed.

(** C5, the claim as stated, fails: with a [url] that is the empty string
    the source keeps its [url] and gets no [tiles]; with a [url] that is a
    number the rewriter throws and nothing is rewritten. *)
Lemma rewriteStyle_url_not_rewritten :
  Js.getProp2 (Js.getProp2 (Js.getProp Examples.emptyUrl "sources") "ngd-base") "url"
  = Some (Js.JString EmptyString)
  /\ Proxy.rewriteStyle Examples.tilesUrl "tiles" Examples.emptyUrl
     = Proxy.Normal Examples.emptyUrl
  /\ Proxy.rewriteJSON (H := Js.refHost) Examples.tilesUrl "tiles" Examples.numberUrl
     = Proxy.Throw
         (Js.TypeError_notAFunction "data.sources[collectionId].url.replace").
Proof. repeat split; vm_compute; reflexivity. Qed.

(** C5 on the style document. *)
Lemma rewriteStyle_tiles_source_witness :
  exists data' srcs' src',
    Proxy.rewriteStyle Examples.tilesUrl "tiles" Examples.style = Proxy.Normal data'
    /\ Js.getProp data' "sources" = Some srcs'
    /\ Js.getProp srcs' "ngd-base" = Some src'
    /\ Js.getProp src' "url" = None
    /\ Js.getProp src' "tiles"
       = Some (Js.JArray [Js.JString "https://proxy.example?service=tiles&collection=ngd-base&path=tiles/3857/{z}/{y}/{x}"])
    /\ Js.getProp data' "center" = None
    /\ Js.getProp data' "zoom" = None.
Proof.
  destruct (rewriteStyle_tiles_source (H := Js.refHost) Examples.tilesUrl Examples.style
              _ _ _ eq_refl eq_refl eq_refl ltac:(discriminate))
    as (data' & srcs' & src' & H1 & _ & H3 & H4 & H5 & H6 & H7 & H8).
  exists data', srcs', src'. repeat split; assumption.
Defined.

(** C9, the claim as stated, fails: the JSON answer to a features request
    keeps its top-level [center] and [zoom]. *)
Lemma features_keep_center_zoom :
  Proxy.rewriteStyle Examples.featuresUrl "features" Examples.featureView
  = Proxy.Normal Examples.featureView
  /\ Proxy.rewriteJSON (H := Js.refHost) Examples.featuresUrl "features" Examples.featureView
     = Proxy.Normal (Js.stringify (H := Js.refHost) Examples.featureView)
  /\ Js.getProp Examples.featureView "center"
     = Some (Js.JArray [Js.JNumber (-1.5)%float; Js.JNumber 52.25%float])
  /\ Js.getProp Examples.featureView "zoom" = Some (Js.JNumber 7%float).
Proof. repeat split; vm_compute; reflexivity. Qed.

(** C9 on the style document, a tiles request with [sources], and on a
    features payload whose source has a number for [url]. *)
Lemma rewriteJSON_center_zoom_witness :
  (exists data',
     Proxy.rewriteStyle Examples.tilesUrl "tiles" Examples.style = Proxy.Normal data'
     /\ Js.getProp data' "center" = None /\ Js.getProp data' "zoom" = None)
  /\ Proxy.rewriteStyle Examples.featuresUrl "features" Examples.numberUrl
     = Proxy.Normal Examples.numberUrl.
Proof.
  split.
  - destruct (rewriteJSON_center_zoom (H := Js.refHost) Examples.tilesUrl "tiles"
                Examples.style)
      as (data' & H1 & _ & H3).
    + discriminate.
    + intros _ v Hv _. vm_compute in Hv. injection Hv as <-. eauto.
    + exists data'. split; [exact H1 | exact H3].
  - destruct (rewriteJSON_center_zoom (H := Js.refHost) Examples.featuresUrl "features"
                Examples.numberUrl)
      as (data' & H1 & _ & H3).
    + discriminate.
    + intros Hguard. vm_compute in Hguard. discriminate Hguard.
    + vm_compute in H3. now rewrite H3 in H1.
Defined.

(* ===================================================================== *)
(** ** Theorems: the Request Classifier and the LiDAR route *)
(* ===================================================================== *)

Section Classifier.
Import Js Proxy.
Context `{Host}.

Lemma sp_get_absent (k : string) (l : Params) : sp_has k l = false -> sp_get k l = None.
Proof.
  induction l as [|[k' v] r IH]; simpl; [reflexivity|].
  destruct (String.eqb k' k); simpl; [discriminate | exact IH].
Qed.

(** C6, as the code has it. A request other than OPTIONS with no [service]
    parameter and no [BBOX] or [bbox] parameter is answered at once, nothing
    being sent upstream, with status 400 and the JSON body
    {error: 'Missing service parameter', usage: 'Add ?service=tiles,
    ?service=features, or ?service=lidar'}: the three valid values are named
    in the usage text. *)
Theorem fetch_missing_service (request : Request) (env : Env) :
  String.eqb (method request) "OPTIONS" = false ->
  sp_has "service" (searchParams (url request)) = false ->
  sp_has "BBOX" (searchParams (url request)) = false ->
  sp_has "bbox" (searchParams (url request)) = false ->
  fetch request env =
    Reply
      {| status := 400;
         headers := [("Content-Type", "application/json");
                     ("Access-Control-Allow-Origin", "*")];
         body :=
           Text (stringify
                   (JObject
                      [ ("error", JString "Missing service parameter");
                        ("usage", JString "Add ?service=tiles, ?service=features, or ?service=lidar") ])) |}.
Proof.
  intros Hm Hs HB Hb. unfold fetch. rewrite Hm. cbv zeta.
  rewrite HB, Hb, (sp_get_absent _ _ Hs). reflexivity.
Qed.

(** C7, as the code has it. For a request other than OPTIONS: with a [BBOX]
    or [bbox] parameter and a [SERVICE] or [service] parameter, whatever its
    value, the request goes to the LiDAR handler; with neither [SERVICE]
    nor [service] it is answered with the missing-service 400, a [BBOX]
    notwithstanding. *)
Theorem fetch_wms_routing (request : Request) (env : Env) :
  String.eqb (method request) "OPTIONS" = false ->
  (sp_has "BBOX" (searchParams (url request))
   || sp_has "bbox" (searchParams (url request)) = true ->
   sp_has "SERVICE" (searchParams (url request))
   || sp_has "service" (searchParams (url request)) = true ->
   fetch request env = handleLidarRequest (url request) request)
  /\ (sp_has "SERVICE" (searchParams (url request)) = false ->
      sp_has "service" (searchParams (url request)) = false ->
      fetch request env = Reply missingService).
Proof.
  intros Hm. unfold fetch. rewrite Hm. cbv zeta. split.
  - intros -> ->. now rewrite orb_true_r.
  - intros -> Hs. rewrite Hs, (sp_get_absent _ _ Hs). cbn [orb].
    now rewrite andb_false_r.
Qed.

(** The copy loop of [handleLidarRequest] is a filter. *)
Lemma lidar_copy_filter (params acc : Params) :
  fold_left
    (fun wmsParams '(key, value) =>
       if String.eqb (toLowerCase key) "service" && String.eqb (toLowerCase value) "lidar"
       then wmsParams else sp_append key value wmsParams)
    params acc
  = acc ++ List.filter
             (fun p => negb (String.eqb (toLowerCase (fst p)) "service"
                             && String.eqb (toLowerCase (snd p)) "lidar"))
             params.
Proof.
  revert acc; induction params as [|[k v] r IH]; intros acc; simpl.
  - now rewrite app_nil_r.
  - rewrite IH. destruct (_ && _); simpl; [reflexivity|].
    unfold sp_append. now rewrite <- app_assoc.
Qed.

Lemma sp_get_set (k v : string) (l : Params) : sp_get k (sp_set k v l) = Some v.
Proof.
  induction l as [|[k' v'] r IH]; simpl.
  - now rewrite String.eqb_refl.
  - destruct (String.eqb k' k) eqn:E; simpl.
    + now rewrite String.eqb_refl.
    + now rewrite E.
Qed.

Lemma sp_get_filter_other (k : string) (f : string * string -> bool) (l : Params) :
  (forall v, f (k, v) = true) -> sp_get k (List.filter f l) = sp_get k l.
Proof.
  intros Hf. induction l as [|[k' v'] r IH]; simpl; [reflexivity|].
  destruct (String.eqb_spec k' k) as [->|Hne].
  - rewrite Hf. simpl. now rewrite String.eqb_refl.
  - destruct (f (k', v')); simpl; [|exact IH].
    destruct (String.eqb_spec k' k); [contradiction | exact IH].
Qed.

Lemma sp_get_set_other (k k' v : string) (l : Params) :
  k <> k' -> sp_get k' (sp_set k v l) = sp_get k' l.
Proof.
  intros Hne. induction l as [|[k0 v0] r IH]; simpl.
  - destruct (String.eqb_spec k k'); [contradiction | reflexivity].
  - destruct (String.eqb_spec k0 k) as [->|Hk0]; simpl.
    + destruct (String.eqb_spec k k'); [contradiction|].
      apply sp_get_filter_other. intros v1. simpl.
      destruct (String.eqb_spec k' k); [congruence | reflexivity].
    + now rewrite IH.
Qed.

(** What does hold of the outbound parameters: the key [LAYERS], in upper
    case, carries the layer of the region, and a parameter of any other
    name that is not the marker is read as it was sent, [layers] in lower
    case included. *)
Lemma lidarParams_LAYERS (params : Params) (layers : string) :
  sp_get "LAYERS" (lidarParams params layers) = Some layers.
Proof. unfold lidarParams. apply sp_get_set. Qed.

Lemma lidarParams_layers_lower (params : Params) (layers : string) :
  sp_get "layers" (lidarParams params layers) = sp_get "layers" params.
Proof.
  unfold lidarParams. rewrite lidar_copy_filter. cbn [app].
  rewrite sp_get_set_other by discriminate.
  match goal with |- context [if ?c then _ else _] => destruct c end.
  - rewrite sp_get_set_other by discriminate. now apply sp_get_filter_other.
  - now apply sp_get_filter_other.
Qed.

End Classifier.


(** C6, the claim as stated, fails: the body of the missing-service answer
    has an [error] and a [usage] text and no list of valid types (no array
    at all); and a preflight without parameters is answered 200. *)
Lemma missing_service_body_has_no_list :
  Proxy.fetch (H := Js.refHost) Requests.bare Requests.env
  = Proxy.Reply (Proxy.missingService (H := Js.refHost))
  /\ Proxy.body (Proxy.missingService (H := Js.refHost))
     = Proxy.Text
         (Js.stringify (H := Js.refHost)
            (Js.JObject
               [ ("error", Js.JString "Missing service parameter");
                 ("usage", Js.JString "Add ?service=tiles, ?service=features, or ?service=lidar") ]))
  /\ (match Proxy.body (Proxy.missingService (H := Js.refHost)) with
      | Proxy.Text t => Js.includes t "validTypes" || Js.includes t "["
      | _ => true
      end) = false
  /\ Proxy.fetch (H := Js.refHost) Requests.options Requests.env
     = Proxy.Reply Proxy.preflight.
Proof. repeat split; vm_compute; reflexivity. Qed.

(** C6 on a GET without parameters. *)
Lemma fetch_missing_service_witness :
  Proxy.fetch (H := Js.refHost) Requests.bare Requests.env
  = Proxy.Reply (Proxy.missingService (H := Js.refHost)).
Proof.
  exact (fetch_missing_service (H := Js.refHost) Requests.bare Requests.env
           eq_refl eq_refl eq_refl eq_refl).
Defined.

(** C7, the claim as stated, fails: a request with a [BBOX] and no service
    parameter is rejected with the missing-service 400. *)
Lemma bbox_without_service_rejected :
  Js.sp_has "BBOX" (Proxy.searchParams (Proxy.url Requests.bboxOnly)) = true
  /\ Proxy.fetch (H := Js.refHost) Requests.bboxOnly Requests.env
     = Proxy.Reply (Proxy.missingService (H := Js.refHost)).
Proof. split; vm_compute; reflexivity. Qed.

(** C7 on a WMS request with a service parameter, and on one without. *)
Lemma fetch_wms_routing_witness :
  Proxy.fetch (H := Js.refHost) Requests.wmsLower Requests.env
  = Proxy.handleLidarRequest (H := Js.refHost) (Proxy.url Requests.wmsLower) Requests.wmsLower
  /\ Proxy.fetch (H := Js.refHost) Requests.bboxOnly Requests.env
     = Proxy.Reply (Proxy.missingService (H := Js.refHost)).
Proof.
  split.
  - exact (proj1 (fetch_wms_routing (H := Js.refHost) Requests.wmsLower Requests.env eq_refl)
             eq_refl eq_refl).
  - exact (proj2 (fetch_wms_routing (H := Js.refHost) Requests.bboxOnly Requests.env eq_refl)
             eq_refl eq_refl).
Defined.

(** C8 on the request of a map client: the caller's [layers] goes upstream
    as it was sent, before the [LAYERS] the proxy adds. *)
Lemma lidar_caller_layers_forwarded :
  Proxy.lidarParams (Proxy.searchParams (Proxy.url Requests.wmsLower))
    "Lidar_Composite_Hillshade_DTM_1m"
  = [ ("service", "WMS"); ("request", "GetMap"); ("layers", "caller_layer");
      ("bbox", "-3.1,51.9,-2.9,52.1"); ("LAYERS", "Lidar_Composite_Hillshade_DTM_1m") ]
  /\ match Proxy.fetch (H := Js.refHost) Requests.wmsLower Requests.env with
     | Proxy.Forward req _ =>
         Proxy.out_url req
         = "https://environment.data.gov.uk/spatialdata/lidar-composite-digital-terrain-model-dtm-1m/wms?service=WMS&request=GetMap&layers=caller_layer&bbox=-3.1%2C51.9%2C-2.9%2C52.1&LAYERS=Lidar_Composite_Hillshade_DTM_1m"
     | Proxy.Reply _ => False
     end.
Proof. split; vm_compute; reflexivity. Qed.

(* ===================================================================== *)
(** ** Theorems: the service worker *)
(* ===================================================================== *)


Section Lifecycle.
Import Js SW.
Variable version : string.

Lemma sweep_lookup (keys : list string) (caches : CacheStorage) (k : string) :
  fold_left
    (fun caches k => if current version k then caches else caches_delete k caches)
    keys caches !! k
  = if current version k then caches !! k
    else if bool_decide (k ∈ keys) then None else caches !! k.
Proof.
  revert caches; induction keys as [|a keys IH]; intros caches; cbn [fold_left].
  - rewrite bool_decide_eq_false_2 by apply not_elem_of_nil.
    now destruct (current version k).
  - rewrite IH. unfold caches_delete. destruct (current version k) eqn:Ek.
    + destruct (current version a) eqn:Ea; [reflexivity|].
      apply lookup_delete_ne. intros ->. congruence.
    + destruct (decide (k ∈ keys)) as [Hin|Hin].
      * rewrite !bool_decide_eq_true_2; [reflexivity | now right | exact Hin].
      * rewrite (bool_decide_eq_false_2 _ Hin).
        destruct (decide (k = a)) as [->|Hne].
        -- rewrite Ek, lookup_delete_eq.
           rewrite bool_decide_eq_true_2; [reflexivity | now left].
        -- rewrite bool_decide_eq_false_2
             by (intros [?|?]%elem_of_cons; contradiction).
           destruct (current version a); [reflexivity | now apply lookup_delete_ne].
Qed.

Lemma activate_lookup (caches : CacheStorage) (k : string) :
  activate version caches !! k = if current version k then caches !! k else None.
Proof.
  unfold activate. rewrite sweep_lookup. destruct (current version k); [reflexivity|].
  case_bool_decide as Hin; [reflexivity|].
  destruct (caches !! k) as [c|] eqn:E; [|reflexivity].
  exfalso. apply Hin. unfold caches_keys.
  apply list_elem_of_fmap. exists (k, c). split; [reflexivity|].
  now apply elem_of_map_to_list.
Qed.

Lemma activate_size (caches : CacheStorage) : size (activate version caches) <= 2.
Proof.
  rewrite <- size_dom.
  transitivity (size ({[APP_CACHE version; RUNTIME_CACHE version]} : gset string)).
  - apply subseteq_size. intros k Hk.
    apply elem_of_dom in Hk as [c Hc]. rewrite activate_lookup in Hc.
    unfold current in Hc.
    destruct (String.eqb_spec k (APP_CACHE version)) as [->|]; [set_solver|].
    destruct (String.eqb_spec k (RUNTIME_CACHE version)) as [->|];
      [set_solver | discriminate].
  - rewrite size_union_alt, size_singleton.
    assert (Hle : size (({[RUNTIME_CACHE version]} : gset string) ∖ {[APP_CACHE version]})
                  <= size ({[RUNTIME_CACHE version]} : gset string))
      by (apply subseteq_size, subseteq_difference_l; reflexivity).
    rewrite size_singleton in Hle. lia.
Qed.

End Lifecycle.

(** C4. After activation a store is there exactly when it was there under
    one of the two current names, with the cache it had: every other store
    is deleted and both current stores survive when present. At most two
    stores are left. From the stores of v1 and v0 and an unrelated one,
    with current version v1, the two stores of v1 are what is left. *)
Theorem activate_keeps_current_only (version : string)
    (caches : gmap string (list (SW.Request * SW.Response))) :
  (forall k,
     SW.activate version caches !! k
     = if String.eqb k (SW.APP_CACHE version) || String.eqb k (SW.RUNTIME_CACHE version)
       then caches !! k else None)
  /\ size (SW.activate version caches) <= 2
  /\ SW.activate "v1" Stores.mixed = Stores.survivors.
Proof.
  split; [exact (activate_lookup version caches)|].
  split; [exact (activate_size version caches)|].
  apply map_eq. intros k. rewrite activate_lookup. unfold SW.current.
  destruct (String.eqb_spec k (SW.APP_CACHE "v1")) as [->|Happ];
    [vm_compute; reflexivity|].
  destruct (String.eqb_spec k (SW.RUNTIME_CACHE "v1")) as [->|Hrun];
    [vm_compute; reflexivity|].
  cbn [orb]. symmetry. unfold Stores.survivors.
  rewrite lookup_insert_ne by (intros <-; now apply Happ).
  apply lookup_singleton_ne. intros <-; now apply Hrun.
Qed.

Section NetworkFirst.
Import Js SW.
Variable version : string.

Lemma caches_open_lookup (name : string) (caches : CacheStorage) :
  exists c, caches_open name caches !! name = Some c.
Proof.
  unfold caches_open. destruct (caches !! name) as [c|] eqn:E.
  - eauto.
  - exists []. apply lookup_insert_eq.
Qed.

Lemma sameHeader_refl (a : option string) : sameHeader a a = true.
Proof. destruct a; simpl; [apply String.eqb_refl | reflexivity]. Qed.

(** A request matches the pair it was accepted with. *)
Lemma requestMatches_self (request : Request) (res : Response) :
  putAccepts request res = true -> requestMatches request (request, res) = true.
Proof.
  unfold putAccepts, requestMatches. cbn [fst snd].
  intros [[[_ Hget]%andb_true_iff _]%andb_true_iff Hvary]%andb_true_iff.
  rewrite Hget, String.eqb_refl. cbn [andb].
  apply negb_true_iff in Hvary.
  induction (res_vary res) as [|f fs IH]; [reflexivity|].
  cbn [existsb forallb] in *. apply orb_false_iff in Hvary as [Hf Hfs].
  rewrite sameHeader_refl, (IH Hfs), String.eqb_sym, Hf. reflexivity.
Qed.

Lemma find_replaced {A : Type} (p : A -> bool) (l : list A) (x : A) :
  p x = true -> List.find p (List.filter (fun e => negb (p e)) l ++ [x]) = Some x.
Proof.
  intros Hx. induction l as [|y l IH]; cbn [List.filter app List.find].
  - now rewrite Hx.
  - destruct (p y) eqn:Hy; cbn [negb]; [exact IH|].
    cbn [app List.find]. now rewrite Hy.
Qed.

Lemma cache_match_put (name : string) (request : Request) (res : Response)
    (caches : CacheStorage) (c : Cache) :
  caches !! name = Some c ->
  putAccepts request res = true ->
  cache_match name request (cache_put name request res caches) = Some res.
Proof.
  intros Hc Hacc. unfold cache_match, cache_put. rewrite Hc, Hacc.
  rewrite lookup_insert_eq.
  rewrite (find_replaced (requestMatches request) c (request, res))
    by now apply requestMatches_self.
  unfold putAccepts in Hacc.
  apply andb_true_iff in Hacc as [[[_ ->]%andb_true_iff _]%andb_true_iff _].
  reflexivity.
Qed.

Lemma cache_put_refused (name : string) (request : Request) (res : Response)
    (caches : CacheStorage) :
  putAccepts request res = false -> cache_put name request res caches = caches.
Proof.
  intros Hacc. unfold cache_put. rewrite Hacc. now destruct (caches !! name).
Qed.

(** C10, as the code has it. For a request of the shell (the path is / or
    ends in /index.html): when the network fetch resolves, with a response
    of any status, the handler answers with that response and puts it in
    the app cache without reading its status. The cache then holds it for
    the request when the put is accepted (a GET over http or https, a
    response that is not partial and has no Vary of every header), a 404 or
    a 500 like a 200; when the put is refused nothing is stored. When the
    fetch is rejected, and only then, the answer is the copy in the app
    cache, or the generic failure response when there is none. *)
Theorem networkFirst_any_status (request : Request) (caches : CacheStorage) :
  strategy request = NetworkFirst ->
  (forall res : Response,
     exists caches',
       onFetch version request (NetResponse res) caches = Responded (Some res) caches'
       /\ (putAccepts request res = true ->
           cache_match (APP_CACHE version) request caches' = Some res)
       /\ (putAccepts request res = false ->
           caches' = caches_open (APP_CACHE version) caches))
  /\ onFetch version request NetRejected caches
     = Responded
         (Some (default Response_error
                  (cache_match (APP_CACHE version) request
                     (caches_open (APP_CACHE version) caches))))
         (caches_open (APP_CACHE version) caches).
Proof.
  intros Hs. unfold onFetch. rewrite Hs. split.
  - intros res. cbn [networkFirst]. eexists. split; [reflexivity|]. split.
    + destruct (caches_open_lookup (APP_CACHE version) caches) as [c Hc].
      intros Hacc. eapply cache_match_put; [exact Hc | exact Hacc].
    + apply cache_put_refused.
  - cbn [networkFirst].
    now destruct (cache_match (APP_CACHE version) request
                    (caches_open (APP_CACHE version) caches)).
Qed.

End NetworkFirst.

(** C10, the claim as stated, fails: a partial response (status 206) to the
    request of the shell document is answered and not stored; nor is the
    answer to a form posted to the root, nor a response with Vary of every
    header. *)
Lemma networkFirst_partial_not_stored :
  SW.strategy Stores.index = SW.NetworkFirst
  /\ SW.onFetch SW.VERSION Stores.index (SW.NetResponse (Stores.page 206 "<ht")) ∅
     = SW.Responded (Some (Stores.page 206 "<ht"))
         (SW.caches_open (SW.APP_CACHE SW.VERSION) ∅)
  /\ SW.cache_match (SW.APP_CACHE SW.VERSION) Stores.index
       (SW.caches_open (SW.APP_CACHE SW.VERSION) ∅)
     = None
  /\ SW.onFetch SW.VERSION Stores.post (SW.NetResponse (Stores.page 200 "<html>")) ∅
     = SW.Responded (Some (Stores.page 200 "<html>"))
         (SW.caches_open (SW.APP_CACHE SW.VERSION) ∅)
  /\ SW.onFetch SW.VERSION Stores.index (SW.NetResponse (Stores.varying 200 "<html>")) ∅
     = SW.Responded (Some (Stores.varying 200 "<html>"))
         (SW.caches_open (SW.APP_CACHE SW.VERSION) ∅).
Proof. repeat split; vm_compute; reflexivity. Qed.

(** C10 on the shell document: a response with status 404 is stored and
    served, and so is one with status 500. *)
Lemma networkFirst_any_status_witness :
  (exists caches',
     SW.onFetch SW.VERSION Stores.index (SW.NetResponse (Stores.page 404 "Not Found")) ∅
     = SW.Responded (Some (Stores.page 404 "Not Found")) caches'
     /\ SW.cache_match (SW.APP_CACHE SW.VERSION) Stores.index caches'
        = Some (Stores.page 404 "Not Found"))
  /\ (exists caches',
        SW.onFetch SW.VERSION Stores.index (SW.NetResponse (Stores.page 500 "Error")) ∅
        = SW.Responded (Some (Stores.page 500 "Error")) caches'
        /\ SW.cache_match (SW.APP_CACHE SW.VERSION) Stores.index caches'
           = Some (Stores.page 500 "Error")).
Proof.
  split.
  - destruct (proj1 (networkFirst_any_status SW.VERSION Stores.index ∅ eq_refl)
                (Stores.page 404 "Not Found")) as (caches' & Hfetch & Hput & _).
    exists caches'. split; [exact Hfetch | exact (Hput eq_refl)].
  - destruct (proj1 (networkFirst_any_status SW.VERSION Stores.index ∅ eq_refl)
                (Stores.page 500 "Error")) as (caches' & Hfetch & Hput & _).
    exists caches'. split; [exact Hfetch | exact (Hput eq_refl)].
Defined.

(* ===================================================================== *)
(** ** Theorems: the answers of the proxy *)
(* ===================================================================== *)

Section Answers.
Import Js Proxy.
Context `{Host}.


(** X2. A request other than OPTIONS, without BBOX or bbox, whose service
    is not empty and is none of tiles, features and lidar, is answered at
    once, without a request upstream, with status 400 and the body
    {error: 'Invalid service type', validTypes: [tiles, features, lidar]}. *)
Theorem fetch_invalid_service (request : Request) (env : Env) (service : string) :
  String.eqb (method request) "OPTIONS" = false ->
  sp_has "BBOX" (searchParams (url request)) = false ->
  sp_has "bbox" (searchParams (url request)) = false ->
  sp_get "service" (searchParams (url request)) = Some service ->
  service <> EmptyString -> service <> "lidar" ->
  service <> "tiles" -> service <> "features" ->
  fetch request env =
    Reply
      {| status := 400;
         headers := [("Content-Type", "application/json");
                     ("Access-Control-Allow-Origin", "*")];
         body :=
           Text (stringify
                   (JObject
                      [ ("error", JString "Invalid service type");
                        ("validTypes",
                          JArray [JString "tiles"; JString "features"; JString "lidar"]) ])) |}.
Proof.
  intros Hm HB Hb Hs He Hl Ht Hf. unfold fetch. rewrite Hm. cbv zeta.
  rewrite HB, Hb, Hs. cbn [orb andb].
  destruct (String.eqb_spec service EmptyString); [contradiction|].
  destruct (String.eqb_spec service "lidar"); [contradiction|].
  destruct (String.eqb_spec service "tiles"); [contradiction|].
  destruct (String.eqb_spec service "features"); [contradiction|].
  reflexivity.
Qed.

(** The requests that go upstream: to the LiDAR handler, or to the OS NGD
    API for tiles or features. *)
Lemma fetch_forward (request : Request) (env : Env) :
  goesUpstream (fetch request env) = true ->
  fetch request env = handleLidarRequest (url request) request
  \/ exists serviceType apiUrl,
       (serviceType = "tiles" \/ serviceType = "features")
       /\ sp_get "service" (searchParams (url request)) = Some serviceType
       /\ fetch request env = proxyUpstream request (url request) serviceType apiUrl.
Proof.
  unfold fetch. destruct (String.eqb (method request) "OPTIONS"); [discriminate|].
  cbv zeta.
  destruct (_ && _); [now left|].
  destruct (sp_get "service" (searchParams (url request))) as [service|];
    [|discriminate].
  destruct (String.eqb service EmptyString); [discriminate|].
  destruct (String.eqb service "lidar"); [now left|].
  destruct (String.eqb_spec service "tiles") as [->|_].
  { intros _. right. eauto 6. }
  destruct (String.eqb_spec service "features") as [->|_]; [|discriminate].
  intros _. right. eauto 6.
Qed.

Lemma orFailure_cases (what : string) (st : nat) (contentType : string) (b : Body) :
  (exists message,
     orFailure what (dataResponse st contentType b) = failure what message)
  \/ orFailure what (dataResponse st contentType b)
     = {| status := st;
          headers := [("Content-Type", contentType); CORS;
                      ("Cache-Control", "public, max-age=3600")];
          body := b |}.
Proof.
  unfold dataResponse.
  destruct (_ || _); [left; eexists; reflexivity|].
  destruct (_ && _); [left; eexists; reflexivity|]. now right.
Qed.

(** X3. Every response of the proxy, the immediate ones and the ones built
    from whatever the upstream did, carries
    Access-Control-Allow-Origin: *. *)
Theorem fetch_always_CORS (request : Request) (env : Env) (result : FetchResult) :
  hasCORS (answer (fetch request env) result).
Proof.
  assert (Hjson : forall st v, hasCORS (jsonResponse st v)) by (intros; right; now left).
  assert (Hdata : forall what st ct b, hasCORS (orFailure what (dataResponse st ct b))).
  { intros. destruct (orFailure_cases what st ct b) as [[m ->]| ->];
      [apply Hjson | right; now left]. }
  destruct (goesUpstream (fetch request env)) eqn:E.
  - apply fetch_forward in E as [->|(st & apiUrl & _ & _ & ->)]; cbn [answer].
    + unfold handleLidarRequest. cbn [answer].
      destruct result; [apply Hdata | apply Hjson].
    + unfold proxyUpstream. cbn [answer].
      destruct result as [r|msg]; [|apply Hjson].
      destruct (includes _ _); [|apply Hdata].
      destruct (up_json r); [|apply Hjson].
      destruct (rewriteJSON _ _ _); [apply Hdata | apply Hjson].
  - unfold fetch in *.
    destruct (String.eqb (method request) "OPTIONS"); [now left|].
    cbv zeta in *.
    destruct (_ && _).
    { unfold handleLidarRequest in E. discriminate E. }
    destruct (sp_get "service" (searchParams (url request))) as [service|];
      [|apply Hjson].
    destruct (String.eqb service EmptyString); [apply Hjson|].
    destruct (String.eqb service "lidar").
    { unfold handleLidarRequest in E. discriminate E. }
    destruct (String.eqb service "tiles"); [discriminate E|].
    destruct (String.eqb service "features"); [discriminate E|].
    apply Hjson.
Qed.

(** X4. When the fetch to the upstream is rejected, the answer has status
    500 and the JSON body {error, message} with the message of the
    rejection, on the LiDAR route and on the OS NGD route. *)
Theorem fetch_upstream_rejected (request : Request) (env : Env) (message : string) :
  goesUpstream (fetch request env) = true ->
  status (answer (fetch request env) (Rejected message)) = 500
  /\ exists what,
       (what = "LiDAR WMS request failed" \/ what = "Proxy request failed")
       /\ body (answer (fetch request env) (Rejected message))
          = Text (stringify (JObject [("error", JString what);
                                      ("message", JString message)])).
Proof.
  intros E. apply fetch_forward in E as [->|(st & apiUrl & _ & _ & ->)];
    (split; [reflexivity|]).
  - exists "LiDAR WMS request failed". split; [now left | reflexivity].
  - exists "Proxy request failed". split; [now right | reflexivity].
Qed.

(** X5. A text body sent after a response of the upstream is either the
    body of a 500 answer of the proxy, or it goes with the status of the
    upstream and is free of key parameters: no position of it starts ?key=
    or &key= followed by a key character. *)
Theorem fetch_text_bodies_redacted (request : Request) (env : Env)
    (r : Upstream) (t : string) :
  goesUpstream (fetch request env) = true ->
  body (answer (fetch request env) (Resolved r)) = Text t ->
  (exists what message, answer (fetch request env) (Resolved r) = failure what message)
  \/ (status (answer (fetch request env) (Resolved r)) = up_status r
      /\ hasKey "?" t = false /\ hasKey "&" t = false).
Proof.
  intros E. apply fetch_forward in E as [->|(st & apiUrl & _ & _ & ->)].
  - unfold handleLidarRequest. cbn [answer].
    destruct (orFailure_cases "LiDAR WMS request failed" (up_status r)
                (orDefault (up_contentType r) "image/png") (Binary (up_arrayBuffer r)))
      as [[m ->]| ->]; [eauto | discriminate].
  - unfold proxyUpstream. cbn [answer].
    destruct (includes _ _).
    + destruct (up_json r) as [data|msg]; [|eauto].
      unfold rewriteJSON.
      destruct (rewriteStyle (url request) st data) as [data'|e]; [|eauto].
      match goal with |- context [orFailure ?w (dataResponse ?a ?b ?c)] =>
        destruct (orFailure_cases w a b c) as [[m ->]| ->] end; [eauto|].
      intros [= <-]. right. split; [reflexivity|]. apply redact_clean.
    + match goal with |- context [orFailure ?w (dataResponse ?a ?b ?c)] =>
        destruct (orFailure_cases w a b c) as [[m ->]| ->] end; [eauto | discriminate].
Qed.


(** X7. On the OS NGD route a response of the upstream that is not JSON,
    with a status from 200 to 599 that allows a body, is passed on as it
    is: its status, its content type and its bytes. *)
Theorem fetch_binary_passthrough (request : Request) (env : Env) (r : Upstream) :
  goesUpstream (fetch request env) = true ->
  sp_has "BBOX" (searchParams (url request)) = false ->
  sp_has "bbox" (searchParams (url request)) = false ->
  sp_get "service" (searchParams (url request)) <> Some "lidar" ->
  includes (orDefault (up_contentType r) EmptyString) "application/json" = false ->
  200 <= up_status r <= 599 ->
  nullBodyStatus (up_status r) = false ->
  answer (fetch request env) (Resolved r)
  = {| status := up_status r;
       headers := [("Content-Type", orDefault (up_contentType r) EmptyString);
                   ("Access-Control-Allow-Origin", "*");
                   ("Cache-Control", "public, max-age=3600")];
       body := Binary (up_arrayBuffer r) |}.
Proof.
  intros E HB Hb Hl Hct Hrange Hnull.
  assert (Hk : forall service apiUrl,
             answer (proxyUpstream request (url request) service apiUrl) (Resolved r)
             = {| status := up_status r;
                  headers := [("Content-Type", orDefault (up_contentType r) EmptyString);
                              ("Access-Control-Allow-Origin", "*");
                              ("Cache-Control", "public, max-age=3600")];
                  body := Binary (up_arrayBuffer r) |}).
  { intros service apiUrl. unfold proxyUpstream. cbn [answer]. rewrite Hct.
    unfold dataResponse. rewrite Hnull. cbn [andb].
    destruct (Nat.ltb_spec (up_status r) 200); [lia|].
    destruct (Nat.ltb_spec 599 (up_status r)); [lia|]. reflexivity. }
  unfold fetch in *. destruct (String.eqb (method request) "OPTIONS"); [discriminate|].
  cbv zeta in *. rewrite HB, Hb in *. cbn [orb andb] in *.
  destruct (sp_get "service" (searchParams (url request))) as [service|];
    [|discriminate].
  destruct (String.eqb service EmptyString); [discriminate|].
  destruct (String.eqb_spec service "lidar") as [Heq|_];
    [now rewrite Heq in Hl|].
  destruct (String.eqb service "tiles"); [apply Hk|].
  destruct (String.eqb service "features"); [apply Hk | discriminate].
Qed.

End Answers.

(** X2 on a request for a service that does not exist. *)
Lemma fetch_invalid_service_witness :
  Proxy.fetch (H := Js.refHost) Requests.elevation Requests.env
  = Proxy.Reply (Proxy.invalidService (H := Js.refHost)).
Proof.
  apply (fetch_invalid_service (H := Js.refHost) Requests.elevation Requests.env
           "elevation"); (reflexivity || discriminate).
Defined.

(** X4 on a request for the style, the upstream out of reach. *)
Lemma fetch_upstream_rejected_witness :
  Proxy.status
    (Proxy.answer (Proxy.fetch (H := Js.refHost) Requests.tiles Requests.env)
       (Proxy.Rejected "connection refused")) = 500
  /\ exists what,
       (what = "LiDAR WMS request failed" \/ what = "Proxy request failed")
       /\ Proxy.body
            (Proxy.answer (Proxy.fetch (H := Js.refHost) Requests.tiles Requests.env)
               (Proxy.Rejected "connection refused"))
          = Proxy.Text
              (Js.stringify (H := Js.refHost)
                 (Js.JObject [("error", Js.JString what);
                              ("message", Js.JString "connection refused")])).
Proof.
  apply (fetch_upstream_rejected (H := Js.refHost) Requests.tiles Requests.env
           "connection refused").
  reflexivity.
Defined.

(** X5 on a request for the style, answered with the style document. *)
Lemma fetch_text_bodies_redacted_witness :
  exists t,
    Proxy.body
      (Proxy.answer (Proxy.fetch (H := Js.refHost) Requests.tiles Requests.env)
         (Proxy.Resolved Upstreams.styleJSON)) = Proxy.Text t
    /\ Js.hasKey "?" t = false /\ Js.hasKey "&" t = false.
Proof.
  eexists. split; [vm_compute; reflexivity|].
  destruct (fetch_text_bodies_redacted (H := Js.refHost) Requests.tiles Requests.env
              Upstreams.styleJSON _ eq_refl eq_refl)
    as [(what & message & Hfail)|(_ & Hkeys)]; [|exact Hkeys].
  apply (f_equal Proxy.status) in Hfail. vm_compute in Hfail. discriminate Hfail.
Defined.


(** X7 on an image that the upstream does not have. *)
Lemma fetch_binary_passthrough_witness :
  Proxy.answer (Proxy.fetch (H := Js.refHost) Requests.tiles Requests.env)
    (Proxy.Resolved (Upstreams.png 404))
  = {| Proxy.status := 404;
       Proxy.headers := [("Content-Type", "image/png");
                         ("Access-Control-Allow-Origin", "*");
                         ("Cache-Control", "public, max-age=3600")];
       Proxy.body := Proxy.Binary "PNG" |}.
Proof.
  apply (fetch_binary_passthrough (H := Js.refHost) Requests.tiles Requests.env
           (Upstreams.png 404));
    first [reflexivity | discriminate | (cbn; lia)].
Defined.

(* ===================================================================== *)
(** ** Theorems: the outbound WMS request *)
(* ===================================================================== *)

Section Outbound.
Import Js Proxy.
Context `{Host}.

Lemma getWMSConfig_same (region : Region) : getWMSConfig region = englandWMS.
Proof. now destruct region. Qed.

(** X8. Whatever the bounding box and the region it falls in, and whatever
    the method of the request, the LiDAR handler sends a GET to the one WMS
    of the table, with the one layer of the table as LAYERS. *)
Theorem handleLidarRequest_upstream (url : URL) (request : Request) :
  exists k,
    handleLidarRequest url request
    = Forward
        {| out_url :=
             "https://environment.data.gov.uk/spatialdata/lidar-composite-digital-terrain-model-dtm-1m/wms?"
               +:+ sp_toString
                     (lidarParams (searchParams url) "Lidar_Composite_Hillshade_DTM_1m");
           out_method := "GET";
           out_headers := [("User-Agent", "MapSketch-Proxy/1.0")] |}
        k.
Proof.
  unfold handleLidarRequest. cbv zeta.
  set (bbox := orElse _ _).
  assert (Hcfg : match bbox with
                 | Some b => if negb (String.eqb b EmptyString)
                             then getWMSConfig (detectRegion b)
                             else getWMSConfig england
                 | None => getWMSConfig england
                 end = englandWMS).
  { destruct bbox as [b|]; [destruct (negb _)|]; apply getWMSConfig_same. }
  rewrite Hcfg. eexists. reflexivity.
Qed.

Lemma sp_has_existsb (k : string) (l : Params) : sp_has k l = existsb (named k) l.
Proof. reflexivity. Qed.

Lemma sp_set_absent (k v : string) (l : Params) :
  sp_has k l = false -> sp_set k v l = l ++ [(k, v)].
Proof.
  induction l as [|[k' v'] r IH]; cbn [sp_has existsb sp_set fst app]; [reflexivity|].
  destruct (String.eqb k' k); cbn [orb]; [discriminate|].
  intros Hr. f_equal. now apply IH.
Qed.

Lemma filter_filter_same {A : Type} (f : A -> bool) (l : list A) :
  List.filter f (List.filter f l) = List.filter f l.
Proof.
  induction l as [|x l IH]; cbn [List.filter]; [reflexivity|].
  destruct (f x) eqn:E; cbn [List.filter]; [rewrite E; now f_equal | exact IH].
Qed.

Lemma sp_set_others (k v : string) (l : Params) :
  List.filter (fun p => negb (named k p)) (sp_set k v l)
  = List.filter (fun p => negb (named k p)) l.
Proof.
  unfold named. induction l as [|[k' v'] r IH]; cbn [sp_set List.filter fst].
  - rewrite String.eqb_refl. reflexivity.
  - destruct (String.eqb k' k) eqn:E; cbn [List.filter fst negb].
    + rewrite String.eqb_refl. cbn [negb].
      apply (filter_filter_same (fun p => negb (String.eqb (fst p) k))).
    + rewrite E. cbn [negb]. now f_equal.
Qed.

Lemma filter_none {A : Type} (f g : A -> bool) (l : list A) :
  (forall x, g x = true -> f x = false) -> List.filter f (List.filter g l) = [].
Proof.
  intros Hfg. induction l as [|x l IH]; cbn [List.filter]; [reflexivity|].
  destruct (g x) eqn:E; cbn [List.filter]; [rewrite (Hfg x E)|]; exact IH.
Qed.

Lemma sp_set_named (k v : string) (l : Params) :
  List.filter (named k) (sp_set k v l) = [(k, v)].
Proof.
  unfold named. induction l as [|[k' v'] r IH]; cbn [sp_set List.filter fst].
  - now rewrite String.eqb_refl.
  - destruct (String.eqb k' k) eqn:E; cbn [List.filter fst].
    + rewrite String.eqb_refl. f_equal.
      apply filter_none. intros x Hx. now apply negb_true_iff in Hx.
    + rewrite E. exact IH.
Qed.

Lemma sp_has_set_other (k k' v : string) (l : Params) :
  k <> k' -> sp_has k' (sp_set k v l) = sp_has k' l.
Proof.
  intros Hne. rewrite !sp_has_existsb.
  assert (Hkeep : forall m : Params,
             existsb (named k') (List.filter (fun p => negb (named k p)) m)
             = existsb (named k') m).
  { induction m as [|[k0 v0] m IHm]; cbn [List.filter existsb]; [reflexivity|].
    destruct (named k (k0, v0)) eqn:E; cbn [negb existsb].
    - unfold named in E. cbn [fst] in E. apply String.eqb_eq in E. subst k0.
      assert (Hk : named k' (k, v0) = false).
      { unfold named. cbn [fst]. now apply String.eqb_neq. }
      rewrite Hk. exact IHm.
    - now rewrite IHm. }
  rewrite <- (Hkeep (sp_set k v l)), sp_set_others. apply Hkeep.
Qed.

Lemma sp_has_set (k v : string) (l : Params) : sp_has k (sp_set k v l) = true.
Proof.
  induction l as [|[k' v'] r IH]; cbn [sp_set].
  - unfold sp_has. cbn. now rewrite String.eqb_refl.
  - destruct (String.eqb k' k) eqn:E.
    + unfold sp_has. cbn. now rewrite String.eqb_refl.
    + unfold sp_has in *. cbn [existsb fst]. rewrite E. exact IH.
Qed.

Lemma forallb_sp_set (f : string * string -> bool) (k v : string) (l : Params) :
  f (k, v) = true -> forallb f l = true -> forallb f (sp_set k v l) = true.
Proof.
  intros Hkv. induction l as [|[k' v'] r IH]; cbn [sp_set forallb].
  - now rewrite Hkv.
  - destruct (String.eqb k' k); cbn [forallb].
    + intros [_ Hr]%andb_true_iff. rewrite Hkv. cbn [andb].
      clear IH. induction r as [|x r IHr]; cbn [List.filter forallb] in *; [reflexivity|].
      apply andb_true_iff in Hr as [Hx Hr].
      destruct (negb _); cbn [forallb]; [rewrite Hx|]; now apply IHr.
    + intros [Hx Hr]%andb_true_iff. rewrite Hx. now apply IH.
Qed.

(** The parameters copied by the loop. *)
Lemma lidarParams_unfold (params : Params) (layers : string) :
  lidarParams params layers
  = let copied := List.filter (fun p => negb (isMarker p)) params in
    sp_set "LAYERS" layers
      (if negb (sp_has "SERVICE" copied) && negb (sp_has "service" copied)
       then sp_set "SERVICE" "WMS" copied else copied).
Proof. unfold lidarParams. now rewrite lidar_copy_filter. Qed.

(** X9. The outbound WMS parameters have exactly one parameter named
    LAYERS, in upper case, and its value is the layer of the region; they
    have a parameter named SERVICE or service; and the marker service=lidar,
    in any case of its letters, is not among them. *)
Theorem lidarParams_shape (params : Params) (layers : string) :
  List.filter (named "LAYERS") (lidarParams params layers) = [("LAYERS", layers)]
  /\ sp_has "SERVICE" (lidarParams params layers)
     || sp_has "service" (lidarParams params layers) = true
  /\ forallb (fun p => negb (isMarker p)) (lidarParams params layers) = true.
Proof.
  rewrite lidarParams_unfold. cbv zeta.
  set (copied := List.filter (fun p => negb (isMarker p)) params).
  assert (Hcopied : forallb (fun p => negb (isMarker p)) copied = true).
  { subst copied. induction params as [|p r IH]; cbn [List.filter]; [reflexivity|].
    destruct (negb (isMarker p)) eqn:E; cbn [forallb]; [rewrite E|]; exact IH. }
  split; [apply sp_set_named|]. split.
  - rewrite !sp_has_set_other by discriminate.
    destruct (sp_has "SERVICE" copied) eqn:HS; cbn [negb andb].
    { now rewrite HS. }
    destruct (sp_has "service" copied) eqn:Hs; cbn [negb].
    { rewrite HS, Hs. reflexivity. }
    now rewrite sp_has_set.
  - apply forallb_sp_set; [reflexivity|].
    destruct (negb (sp_has "SERVICE" copied) && negb (sp_has "service" copied));
      [|exact Hcopied].
    now apply forallb_sp_set.
Qed.

(** X10. The parameters of the request other than the marker and than
    LAYERS go upstream unchanged and in their order, followed by
    SERVICE=WMS when the request had no SERVICE and no service left. *)
Theorem lidarParams_others_kept (params : Params) (layers : string) :
  List.filter (fun p => negb (named "LAYERS" p)) (lidarParams params layers)
  = List.filter (fun p => negb (named "LAYERS" p))
      (List.filter (fun p => negb (isMarker p)) params)
    ++ (if negb (sp_has "SERVICE" (List.filter (fun p => negb (isMarker p)) params))
           && negb (sp_has "service" (List.filter (fun p => negb (isMarker p)) params))
        then [("SERVICE", "WMS")] else []).
Proof.
  rewrite lidarParams_unfold. cbv zeta.
  set (copied := List.filter (fun p => negb (isMarker p)) params).
  rewrite sp_set_others.
  destruct (sp_has "SERVICE" copied) eqn:HS; cbn [negb andb].
  { now rewrite app_nil_r. }
  destruct (sp_has "service" copied); cbn [negb].
  { now rewrite app_nil_r. }
  rewrite (sp_set_absent _ _ _ HS), List.filter_app. reflexivity.
Qed.

End Outbound.

(* ===================================================================== *)
(** ** Theorems: what the rewriter leaves alone *)
(* ===================================================================== *)

Section Unchanged.
Import Js Proxy.

Lemma replaceAll_unchanged (lead : ascii) (s : string) :
  hasKey lead s = false -> replaceAll (keyMatch lead) 0 s = s.
Proof.
  induction s as [|c t IH]; [reflexivity|].
  intros Hs. cbn [replaceAll].
  pose proof Hs as Hh. cbn [hasKey] in Hh.
  destruct (keyMatch lead (String c t)) as [n|]; [discriminate|].
  f_equal. now apply IH.
Qed.

(** X11. A text in which no position starts ?key= or &key= followed by a
    key character goes through the redaction pass unchanged. *)
Theorem redact_unchanged (jsonText : string) :
  hasKey "?" jsonText = false -> hasKey "&" jsonText = false ->
  redact jsonText = jsonText.
Proof.
  intros Hq Ha. unfold redact.
  rewrite (replaceAll_unchanged "?" _ Hq). now apply replaceAll_unchanged.
Qed.

(** X12. The redaction pass is idempotent: a second pass over a redacted
    text finds nothing more to remove. *)
Theorem redact_idempotent (jsonText : string) :
  redact (redact jsonText) = redact jsonText.
Proof.
  destruct (redact_clean jsonText) as [Hq Ha]. unfold redact at 1.
  rewrite (replaceAll_unchanged "?" _ Hq). now apply replaceAll_unchanged.
Qed.

End Unchanged.

(** X11 on a body whose only key text is in a parameter of another name. *)
Lemma redact_unchanged_witness :
  Proxy.redact (Js.stringify (H := Js.refHost) Examples.twoKeysRedacted)
  = Js.stringify (H := Js.refHost) Examples.twoKeysRedacted.
Proof. apply redact_unchanged; vm_compute; reflexivity. Defined.

Section Frame.
Import Js Proxy.
Context `{Host}.

Lemma getProp_setProp_ne (o : JSON) (k k' : string) (v : JSON) :
  k <> k' -> (exists ms, o = JObject ms) ->
  getProp (setProp o k v) k' = getProp o k'.
Proof.
  intros Hne [ms ->]. cbn [setProp getProp]. now apply assoc_assocSet_ne.
Qed.

(** X13. The rewrite of a style touches three members of the document at
    most: every member other than sources, center and zoom is in the
    rewritten document what it was in the body of the upstream. *)
Theorem rewriteStyle_frame (url : URL) (serviceType : string) (data data' : JSON)
    (k : string) :
  rewriteStyle url serviceType data = Normal data' ->
  k <> "sources" -> k <> "center" -> k <> "zoom" ->
  getProp data' k = getProp data k.
Proof.
  unfold rewriteStyle. intros E Hs Hc Hz.
  destruct (isNull data); [discriminate|].
  destruct (truthyOpt (getProp data "sources") && String.eqb serviceType "tiles").
  2:{ now injection E as <-. }
  cbv zeta in E.
  destruct (truthyOpt _ && truthyOpt _).
  2:{ injection E as <-. rewrite !getProp_deleteProp_ne by congruence. reflexivity. }
  destruct (getProp data "sources") as [srcs|] eqn:Esrcs; [|discriminate].
  destruct (getProp2 (Some srcs) (collectionOf url)) as [src|]; [|discriminate].
  destruct (getProp2 (Some src) "url") as [[| | |u| |]|]; try discriminate.
  injection E as <-.
  rewrite !getProp_deleteProp_ne by congruence.
  apply getProp_setProp_ne; [congruence|].
  now apply (getProp_object data "sources" srcs).
Qed.

End Frame.

(** X13 on the style document: its sprite is what the upstream sent. *)
Lemma rewriteStyle_frame_witness :
  exists data',
    Proxy.rewriteStyle Examples.tilesUrl "tiles" Examples.style = Proxy.Normal data'
    /\ Js.getProp data' "sprite"
       = Some (Js.JString "https://api.os.uk/sprites/sprite?key=ABC123").
Proof.
  destruct (Proxy.rewriteStyle Examples.tilesUrl "tiles" Examples.style)
    as [data'|e] eqn:E; [|vm_compute in E; discriminate E].
  exists data'. split; [reflexivity|].
  rewrite (rewriteStyle_frame Examples.tilesUrl "tiles" Examples.style data' "sprite" E)
    by discriminate.
  reflexivity.
Defined.

(* ===================================================================== *)
(** ** Theorems: the centre of the box *)
(* ===================================================================== *)

Section Centre.
Import Js Proxy.
Context `{Host}.
Local Open Scope float_scope.

Lemma SFadd_comm (x y : spec_float) : SFadd prec emax x y = SFadd prec emax y x.
Proof.
  destruct x as [sx|sx| |sx mx ex], y as [sy|sy| |sy my ey]; cbn [SFadd];
    try reflexivity.
  - destruct sx, sy; reflexivity.
  - destruct sx, sy; reflexivity.
  - now rewrite Z.min_comm, Z.add_comm.
Qed.

(** Addition of binary64 numbers is commutative. *)
Lemma float_add_comm (x y : float) : x + y = y + x.
Proof.
  apply Prim2SF_inj. rewrite !FloatAxioms.add_spec. apply SFadd_comm.
Qed.

(** X14. The region depends on the centre of the box only: the box given
    with its corners exchanged (max first) resolves to the same region; the
    resolver does not check that min is below max. *)
Theorem detectRegion_corners_exchanged (s1 s2 : string) (a b c d : float) :
  map parseFloat (split "," s1) = [a; b; c; d] ->
  map parseFloat (split "," s2) = [c; d; a; b] ->
  detectRegion s1 = detectRegion s2.
Proof.
  intros H1 H2. unfold detectRegion. rewrite H1, H2.
  cbn [List.length Nat.eqb negb nth].
  now rewrite (float_add_comm c a), (float_add_comm d b).
Qed.

Lemma is_nan_Prim2SF (x : float) : is_nan x = true -> Prim2SF x = S754_nan.
Proof.
  unfold is_nan. rewrite FloatAxioms.eqb_spec. intros Hx%negb_true_iff.
  destruct (Prim2SF x) as [s|s| |s m e]; [..|reflexivity|]; exfalso;
    unfold SFeqb, SFcompare in Hx; destruct s;
    rewrite ?Z.compare_refl, ?Pos.compare_cont_refl, ?Pos.compare_refl in Hx;
    discriminate Hx.
Qed.

Lemma ltb_nan_l (x y : float) : is_nan x = true -> (x <? y) = false.
Proof.
  intros Hx%is_nan_Prim2SF. rewrite FloatAxioms.ltb_spec, Hx. reflexivity.
Qed.

Lemma ltb_nan_r (x y : float) : is_nan y = true -> (x <? y) = false.
Proof.
  intros Hy%is_nan_Prim2SF. rewrite FloatAxioms.ltb_spec, Hy.
  destruct (Prim2SF x) as [[]|[]| |]; reflexivity.
Qed.

(** X15. A box whose centre has no latitude (NaN, as from a coordinate
    that parseFloat cannot read) resolves to england, whatever its
    longitude: every rule compares the latitude, and no comparison with NaN
    holds. *)
Theorem detectRegion_no_latitude (bboxString : string) (a b c d : float) :
  map parseFloat (split "," bboxString) = [a; b; c; d] ->
  is_nan (snd (geographicCenter ((a + c) / 2) ((b + d) / 2))) = true ->
  detectRegion bboxString = england.
Proof.
  intros Hc Hnan. unfold detectRegion. rewrite Hc.
  cbn [List.length Nat.eqb negb nth].
  destruct (geographicCenter ((a + c) / 2) ((b + d) / 2)) as [lon lat].
  cbn [snd] in Hnan.
  rewrite !(fun x => ltb_nan_r x lat Hnan), !andb_false_r. reflexivity.
Qed.

End Centre.

(** X14 on a box over Wales. *)
Lemma detectRegion_corners_exchanged_witness :
  Proxy.detectRegion (H := Js.refHost) "-3.1,51.9,-2.9,52.1"
  = Proxy.detectRegion (H := Js.refHost) "-2.9,52.1,-3.1,51.9".
Proof.
  apply (detectRegion_corners_exchanged (H := Js.refHost) _ _
           (-3.1)%float 51.9%float (-2.9)%float 52.1%float);
    vm_compute; reflexivity.
Defined.

(** X15 on a box whose second and fourth coordinates are words. *)
Lemma detectRegion_no_latitude_witness :
  Proxy.detectRegion (H := Js.refHost) "-3.1,south,-2.9,north" = Proxy.england.
Proof.
  apply (detectRegion_no_latitude (H := Js.refHost) _
           (-3.1)%float nan (-2.9)%float nan);
    vm_compute; reflexivity.
Defined.

(* ===================================================================== *)
(** ** Theorems: the caches over time *)
(* ===================================================================== *)

Section Caching.
Import Js SW.
Variable version : string.

(** X16. Activation is idempotent: a second activation deletes nothing. *)
Theorem activate_idempotent (caches : CacheStorage) :
  activate version (activate version caches) = activate version caches.
Proof.
  apply map_eq. intros k. rewrite !activate_lookup.
  now destruct (current version k).
Qed.

Lemma append_inj_l (p a b : string) : p +:+ a = p +:+ b -> a = b.
Proof.
  induction p as [|c p IH]; [trivial|].
  change (String c p +:+ a) with (String c (p +:+ a)).
  change (String c p +:+ b) with (String c (p +:+ b)).
  intros [= E]. now apply IH.
Qed.

Lemma current_old (old : string) :
  old <> version ->
  current version (APP_CACHE old) = false
  /\ current version (RUNTIME_CACHE old) = false.
Proof.
  intros Hne. unfold current, APP_CACHE, RUNTIME_CACHE.
  split; apply orb_false_iff; split; apply String.eqb_neq; intros E.
  - now apply append_inj_l in E.
  - discriminate E.
  - discriminate E.
  - now apply append_inj_l in E.
Qed.

(** X17. Activation of a version deletes the two stores of every other
    version, whatever they hold. *)
Theorem activate_deletes_other_versions (old : string) (caches : CacheStorage) :
  old <> version ->
  activate version caches !! APP_CACHE old = None
  /\ activate version caches !! RUNTIME_CACHE old = None.
Proof.
  intros Hne. destruct (current_old old Hne) as [Ha Hr].
  now rewrite !activate_lookup, Ha, Hr.
Qed.

Lemma caches_open_present (name : string) (caches : CacheStorage) (c : Cache) :
  caches !! name = Some c -> caches_open name caches = caches.
Proof. intros Hc. unfold caches_open. now rewrite Hc. Qed.

Lemma caches_open_again (name : string) (caches : CacheStorage) :
  caches_open name (caches_open name caches) = caches_open name caches.
Proof.
  destruct (caches_open_lookup name caches) as [c Hc].
  exact (caches_open_present _ _ _ Hc).
Qed.

Lemma cache_put_lookup (name : string) (request : Request) (res : Response)
    (caches : CacheStorage) (c : Cache) :
  caches !! name = Some c ->
  exists c', cache_put name request res caches !! name = Some c'.
Proof.
  intros Hc. unfold cache_put. rewrite Hc.
  destruct (putAccepts request res); [|eauto].
  eexists. apply lookup_insert_eq.
Qed.

Lemma cache_put_open (name : string) (request : Request) (res : Response)
    (caches : CacheStorage) :
  caches_open name (cache_put name request res (caches_open name caches))
  = cache_put name request res (caches_open name caches).
Proof.
  destruct (caches_open_lookup name caches) as [c Hc].
  destruct (cache_put_lookup name request res _ _ Hc) as [c' Hc'].
  exact (caches_open_present _ _ _ Hc').
Qed.

(** X18. Network first, then offline: once the network has answered a
    request of the shell with a response that the cache accepts, the same
    request is answered with that response while the network is down, and
    the caches stay as they are. *)
Theorem networkFirst_offline_copy (request : Request) (res : Response)
    (caches : CacheStorage) :
  strategy request = NetworkFirst ->
  putAccepts request res = true ->
  exists caches',
    onFetch version request (NetResponse res) caches = Responded (Some res) caches'
    /\ onFetch version request NetRejected caches' = Responded (Some res) caches'.
Proof.
  intros Hs Hacc. unfold onFetch. rewrite Hs. cbn [networkFirst].
  eexists. split; [reflexivity|].
  rewrite cache_put_open.
  destruct (caches_open_lookup (APP_CACHE version) caches) as [c Hc].
  now rewrite (cache_match_put _ _ _ _ _ Hc Hacc).
Qed.


(** X20. Cache first stores no failure: for an asset that is not in the
    app cache, a response that is not ok is passed on and not stored, and a
    rejected fetch leaves the handler without a response; in both cases the
    asset is still not in the cache afterwards. *)
Theorem cacheFirst_failure_not_stored (request : Request) (net : NetResult)
    (caches : CacheStorage) :
  strategy request = CacheFirst ->
  cache_match (APP_CACHE version) request (caches_open (APP_CACHE version) caches) = None ->
  match net with NetResponse res => ok res = false | NetRejected => True end ->
  onFetch version request net caches
  = Responded (match net with NetResponse res => Some res | NetRejected => None end)
      (caches_open (APP_CACHE version) caches).
Proof.
  intros Hs Hmiss Hnet. unfold onFetch. rewrite Hs. unfold cacheFirst.
  rewrite Hmiss. destruct net as [res|]; [now rewrite Hnet | reflexivity].
Qed.

(** X21. The order of the tests decides: a request whose path ends in one
    of the asset extensions, and is not the shell page, is handled cache
    first with the app cache, also on the tile host; the third strategy
    only sees requests to the tile host whose path has no such extension. *)
Theorem strategy_extension_first (request : Request) :
  (String.eqb (req_pathname request) "/"
   || endsWith (req_pathname request) "/index.html" = false ->
   existsb (endsWith (req_pathname request)) assetExtensions = true ->
   strategy request = CacheFirst)
  /\ (strategy request = StaleWhileRevalidate ->
      existsb (endsWith (req_pathname request)) assetExtensions = false
      /\ endsWith (req_host request) "tile.openstreetmap.org" = true).
Proof.
  unfold strategy. split.
  - intros -> ->. reflexivity.
  - destruct (_ || _); [discriminate|].
    destruct (existsb _ _); [discriminate|].
    destruct (endsWith (req_host request) _); [now split | discriminate].
Qed.

(** X22. Stale while revalidate, offline: when the fetch is rejected every
    answer the handler can give is the copy in the runtime cache (nothing,
    when there is none), and no cache changes beyond the opening of the
    runtime cache. *)
Theorem staleWhileRevalidate_offline (request : Request) (caches : CacheStorage) :
  Forall
    (fun answer =>
       answer = cache_match (RUNTIME_CACHE version) request
                  (caches_open (RUNTIME_CACHE version) caches))
    (fst (staleWhileRevalidate version request NetRejected caches))
  /\ fst (staleWhileRevalidate version request NetRejected caches) <> []
  /\ snd (staleWhileRevalidate version request NetRejected caches)
     = caches_open (RUNTIME_CACHE version) caches.
Proof.
  unfold staleWhileRevalidate, revalidate.
  destruct (cache_match _ _ _) as [hit|]; cbn [fst snd];
    (split; [repeat constructor | split; [discriminate | reflexivity]]).
Qed.

(** X23. Stale while revalidate refreshes the copy: after an ok response
    of the network that the cache accepts, the runtime cache holds that
    response for the request, and it is the stored copy of the next request
    for the tile; a response that is not ok leaves the runtime cache as it
    was. *)
Theorem staleWhileRevalidate_refresh (request : Request) (res : Response)
    (caches : CacheStorage) :
  strategy request = StaleWhileRevalidate ->
  (ok res = true -> putAccepts request res = true ->
   cache_match (RUNTIME_CACHE version) request
     (snd (staleWhileRevalidate version request (NetResponse res) caches))
   = Some res
   /\ forall net,
        onFetch version request net
          (snd (staleWhileRevalidate version request (NetResponse res) caches))
        = Raced (Some res) net)
  /\ (ok res = false ->
      snd (staleWhileRevalidate version request (NetResponse res) caches)
      = caches_open (RUNTIME_CACHE version) caches).
Proof.
  intros Hs. unfold staleWhileRevalidate, revalidate. split.
  - intros Hok Hacc. rewrite Hok.
    destruct (caches_open_lookup (RUNTIME_CACHE version) caches) as [c Hc].
    assert (Hm : cache_match (RUNTIME_CACHE version) request
                   (cache_put (RUNTIME_CACHE version) request res
                      (caches_open (RUNTIME_CACHE version) caches)) = Some res)
      by exact (cache_match_put _ _ _ _ _ Hc Hacc).
    destruct (cache_match (RUNTIME_CACHE version) request
                (caches_open (RUNTIME_CACHE version) caches)); cbn [snd];
      (split; [exact Hm|]); intros net;
      unfold onFetch; rewrite Hs; now rewrite cache_put_open, Hm.
  - intros Hok. rewrite Hok.
    now destruct (cache_match _ _ _).
Qed.



Lemma install_unfold (origin host : string) (net : Request -> NetResult)
    (caches : CacheStorage) :
  install version origin host net caches
  = if storable (shellIndex origin host) (net (shellIndex origin host))
       && storable (shellManifest origin host) (net (shellManifest origin host))
    then
      (true,
       fold_left
         (fun caches rq =>
            match net rq with
            | NetResponse r => cache_put (APP_CACHE version) rq r caches
            | NetRejected => caches
            end)
         [shellIndex origin host; shellManifest origin host]
         (caches_open (APP_CACHE version) caches))
    else (false, caches_open (APP_CACHE version) caches).
Proof.
  unfold install, addAll, SHELL. cbn [map forallb].
  fold (shellIndex origin host) (shellManifest origin host).
  rewrite andb_true_r.
  now destruct (storable _ _ && storable _ _).
Qed.

(** X24. Installation is all or nothing: it succeeds exactly when the
    network answers both documents of the shell with an ok response that
    the cache accepts, and a failed installation stores nothing: the app
    cache is opened and that is all. *)
Theorem install_all_or_nothing (origin host : string) (net : Request -> NetResult)
    (caches : CacheStorage) :
  fst (install version origin host net caches)
  = storable (shellIndex origin host) (net (shellIndex origin host))
    && storable (shellManifest origin host) (net (shellManifest origin host))
  /\ (fst (install version origin host net caches) = false ->
      snd (install version origin host net caches)
      = caches_open (APP_CACHE version) caches).
Proof.
  rewrite install_unfold.
  destruct (storable _ _ && storable _ _); cbn [fst snd]; split;
    try reflexivity; discriminate.
Qed.


End Caching.

(** X17 on the app cache of the version before. *)
Lemma activate_deletes_other_versions_witness :
  SW.activate SW.VERSION Stores.previous !! SW.APP_CACHE "v1.1.0" = None
  /\ SW.activate SW.VERSION Stores.previous !! SW.RUNTIME_CACHE "v1.1.0" = None.
Proof.
  apply (activate_deletes_other_versions SW.VERSION "v1.1.0" Stores.previous).
  discriminate.
Defined.

(** X18 on the shell page. *)
Lemma networkFirst_offline_copy_witness :
  exists caches',
    SW.onFetch SW.VERSION Stores.index (SW.NetResponse (Stores.page 200 "<html>")) ∅
    = SW.Responded (Some (Stores.page 200 "<html>")) caches'
    /\ SW.onFetch SW.VERSION Stores.index SW.NetRejected caches'
       = SW.Responded (Some (Stores.page 200 "<html>")) caches'.
Proof.
  exact (networkFirst_offline_copy SW.VERSION Stores.index (Stores.page 200 "<html>") ∅
           eq_refl eq_refl).
Defined.


(** X20 on a script that the server does not have. *)
Lemma cacheFirst_failure_not_stored_witness :
  SW.onFetch SW.VERSION Stores.script (SW.NetResponse (Stores.page 404 "Not Found")) ∅
  = SW.Responded (Some (Stores.page 404 "Not Found"))
      (SW.caches_open (SW.APP_CACHE SW.VERSION) ∅).
Proof.
  apply (cacheFirst_failure_not_stored SW.VERSION Stores.script
           (SW.NetResponse (Stores.page 404 "Not Found")) ∅);
    vm_compute; reflexivity.
Defined.

(** X23 on a tile asked for without an extension. *)
Lemma staleWhileRevalidate_refresh_witness :
  SW.cache_match (SW.RUNTIME_CACHE SW.VERSION) Stores.bareTile
    (snd (SW.staleWhileRevalidate SW.VERSION Stores.bareTile
            (SW.NetResponse (Stores.page 200 "png")) ∅))
  = Some (Stores.page 200 "png")
  /\ forall net,
       SW.onFetch SW.VERSION Stores.bareTile net
         (snd (SW.staleWhileRevalidate SW.VERSION Stores.bareTile
                 (SW.NetResponse (Stores.page 200 "png")) ∅))
       = SW.Raced (Some (Stores.page 200 "png")) net.
Proof.
  apply (proj1 (staleWhileRevalidate_refresh SW.VERSION Stores.bareTile
                  (Stores.page 200 "png") ∅ eq_refl));
    vm_compute; reflexivity.
Defined.


(** X21 on a tile of OpenStreetMap as the map asks for it, its path ending
    in .png: it is handled cache first. *)
Lemma strategy_extension_first_witness :
  SW.strategy Stores.tile = SW.CacheFirst.
Proof.
  apply (proj1 (strategy_extension_first Stores.tile)); reflexivity.
Defined.

